(** * Assessment session engine (TestRunner): a shallow embedding

    The development follows the student test runner component: the answer
    store ([updateAnswer], [toggleFlag]), the scoring function
    ([calculateScore]), the pass threshold, the loading of a test
    ([fetchTestData]), the start and the submission of an attempt
    ([startTest], [handleSubmitTest]) and the countdown effect.

    JavaScript numbers are IEEE-754 binary64 values; they are modelled with
    the Standard Library's [spec_float] at precision 53 and maximal exponent
    1024, whose operations round to nearest, ties to even. *)

From Stdlib Require Import ZArith QArith Qfield String Ascii List Bool Lia.
From Stdlib Require Import Floats.SpecFloat.
From stdpp Require Import base option list gmap strings pretty sets.

Local Open Scope Z_scope.

(** ** Binary64 numbers *)

Module Float64.

Definition float64 : Type := spec_float.

Definition NaN : float64 := S754_nan.

#[global] Instance float64_eq_dec : EqDecision float64.
Proof. unfold float64. solve_decision. Defined.

Definition of_Z (z : Z) : float64 := binary_normalize 53 1024 z 0 false.

Definition add : float64 -> float64 -> float64 := SFadd 53 1024.
Definition sub : float64 -> float64 -> float64 := SFsub 53 1024.
Definition mul : float64 -> float64 -> float64 := SFmul 53 1024.
Definition div : float64 -> float64 -> float64 := SFdiv 53 1024.

(** [Math.abs]. *)
Definition Math_abs : float64 -> float64 := SFabs.

(** The relational operators [<] and [>=] and the strict equality of two
    numbers; each is false as soon as one side is NaN. *)
Definition lt (x y : float64) : bool := SFltb x y.
Definition ge (x y : float64) : bool := SFleb y x.
Definition eq (x y : float64) : bool := SFeqb x y.

(** [Math.round]: the closest integer, ties towards +infinity; an
    argument in [-0.5, 0) and -0 give -0. *)
Definition Math_round (x : float64) : float64 :=
  match x with
  | S754_finite s m e =>
      if 0 <=? e then x
      else
        let v := if s then Z.neg m else Z.pos m in
        let z := (2 * v + 2 ^ (- e)) / 2 ^ (- e + 1) in
        if z =? 0 then S754_zero s else of_Z z
  | _ => x
  end.

(** ToBoolean of a number: 0, -0 and NaN are falsy. *)
Definition truthy (x : float64) : bool :=
  match x with
  | S754_zero _ | S754_nan => false
  | _ => true
  end.

(** The number denoted by the decimal literal [m]e[e10] with sign [neg],
    correctly rounded. *)
Definition of_decimal (neg : bool) (m : Z) (e10 : Z) : float64 :=
  match m with
  | Z.pos p =>
      if 0 <=? e10
      then binary_normalize 53 1024
             ((if neg then Z.neg p else Z.pos p) * 10 ^ e10) 0 false
      else div (S754_finite neg p 0)
               (S754_finite false (Z.to_pos (10 ^ (- e10))) 0)
  | _ => S754_zero neg
  end.

End Float64.

Import Float64.

(** ** JavaScript values and the built-ins the component calls *)

Module JS.

(** The values an answer or a correct answer can hold:
    [number | number[] | string | boolean | null].  The elements of an
    array are option indexes, kept as integers. *)
Inductive JsValue : Type :=
| JNull
| JNum (x : float64)
| JStr (s : string)
| JBool (b : bool)
| JArr (l : list Z).

Inductive JsError : Type := TypeError.

(** Completion of an evaluation: a value or a thrown error. *)
Inductive Completion (A : Type) : Type :=
| Normal (a : A)
| Throw (e : JsError).
Arguments Normal {A} a.
Arguments Throw {A} e.

Definition bind {A B} (c : Completion A) (k : A -> Completion B) : Completion B :=
  match c with
  | Normal a => k a
  | Throw e => Throw e
  end.

(** Strict equality [===].  Two arrays are equal only when they are the
    same object; the answer of a user and the correct answer of a question
    never are. *)
Definition strictEq (a b : JsValue) : bool :=
  match a, b with
  | JNull, JNull => true
  | JNum x, JNum y => Float64.eq x y
  | JStr s, JStr t => String.eqb s t
  | JBool x, JBool y => Bool.eqb x y
  | _, _ => false
  end.

Definition code (c : ascii) : Z := Z.of_N (N_of_ascii c).

(** White space and line terminators among the code units below 256. *)
Definition is_ws (c : ascii) : bool :=
  let n := code c in
  ((9 <=? n) && (n <=? 13)) || (n =? 32) || (n =? 160).

Definition digit_of (c : ascii) : option Z :=
  let n := code c in
  if (48 <=? n) && (n <=? 57) then Some (n - 48) else None.

Fixpoint skip_ws (s : string) : string :=
  match s with
  | String c r => if is_ws c then skip_ws r else s
  | EmptyString => s
  end.

(** The longest run of decimal digits at the head of [s], and the rest. *)
Fixpoint take_digits (s : string) : list Z * string :=
  match s with
  | String c r =>
      match digit_of c with
      | Some d => let '(ds, r') := take_digits r in (d :: ds, r')
      | None => ([], s)
      end
  | EmptyString => ([], s)
  end.

Definition digits_value (ds : list Z) : Z :=
  fold_left (fun acc d => 10 * acc + d) ds 0.

(** The value of an ExponentPart at the head of [s]; 0 when there is
    none (an [e] without digits is not part of the literal). *)
Definition exponent_part (s : string) : Z :=
  match s with
  | String c r =>
      if (code c =? 101) || (code c =? 69) then
        let '(neg, r1) :=
          match r with
          | String "+" r' => (false, r')
          | String "-" r' => (true, r')
          | _ => (false, r)
          end in
        let '(ds, _) := take_digits r1 in
        match ds with
        | [] => 0
        | _ => if neg then - digits_value ds else digits_value ds
        end
      else 0
  | EmptyString => 0
  end.

(** [parseFloat] on a string: leading white space is skipped, the longest
    prefix that is a StrDecimalLiteral is converted, NaN when there is
    none. *)
Definition parseFloat_string (s : string) : float64 :=
  let t := skip_ws s in
  let '(neg, u) :=
    match t with
    | String "-" r => (true, r)
    | String "+" r => (false, r)
    | _ => (false, t)
    end in
  if String.prefix "Infinity" u then S754_infinity neg
  else
    let '(ip, r1) := take_digits u in
    let '(fp, r2) :=
      match r1 with
      | String "." r => take_digits r
      | _ => ([], r1)
      end in
    match ip ++ fp with
    | [] => NaN
    | ds => of_decimal neg (digits_value ds)
              (exponent_part r2 - Z.of_nat (length fp))
    end.

(** [parseFloat] on a value: the argument is first converted to a string.
    A number prints to the shortest literal that reads back as itself
    (-0 prints as "0"); booleans and null print as words; an array prints
    its elements separated by commas, so only the first one is read. *)
Definition parseFloat (v : JsValue) : float64 :=
  match v with
  | JStr s => parseFloat_string s
  | JNum (S754_zero _) => S754_zero false
  | JNum x => x
  | JArr (z :: _) => of_Z z
  | JArr [] | JBool _ | JNull => NaN
  end.

(** The [length] property: defined on arrays and strings, [undefined]
    on numbers and booleans, a TypeError on null. *)
Definition length_of (v : JsValue) : Completion (option Z) :=
  match v with
  | JArr l => Normal (Some (Z.of_nat (length l)))
  | JStr s => Normal (Some (Z.of_nat (String.length s)))
  | JNum _ | JBool _ => Normal None
  | JNull => Throw TypeError
  end.

(** [hay.includes(a)]: membership in an array, substring search of the
    printed number in a string, not a function otherwise. *)
Definition includes (hay : JsValue) (a : Z) : Completion bool :=
  match hay with
  | JArr l => Normal (existsb (Z.eqb a) l)
  | JStr s => Normal (bool_decide (is_Some (String.index 0 (pretty a) s)))
  | _ => Throw TypeError
  end.

(** [l.every(p)]: stops at the first element that fails. *)
Fixpoint every (l : list Z) (p : Z -> Completion bool) : Completion bool :=
  match l with
  | [] => Normal true
  | a :: l' => bind (p a) (fun b => if b then every l' p else Normal false)
  end.

End JS.

Import JS.

(** ** Data model *)

Inductive QuestionType : Type :=
| mcq_single
| mcq_multiple
| true_false
| numeric.

(** The fields of a question.  The component holds questions whose [id]
    is a string ([Question]); the data of a stored question document has
    the same fields, and an [id] field only if its writer stored one
    ([QuestionData]). *)
Record QuestionOf (Id : Type) : Type := {
  q_id : Id;
  q_question : string;
  q_type : QuestionType;
  q_options : option (list string);
  q_correctAnswer : JsValue;
  q_explanation : string;
  q_category : string;
  q_difficulty : string
}.

Arguments Build_QuestionOf {Id}.
Arguments q_id {Id}.
Arguments q_question {Id}.
Arguments q_type {Id}.
Arguments q_options {Id}.
Arguments q_correctAnswer {Id}.
Arguments q_explanation {Id}.
Arguments q_category {Id}.
Arguments q_difficulty {Id}.

Definition Question : Type := QuestionOf string.
Definition QuestionData : Type := QuestionOf (option string).

(** Likewise for tests: [Test] in the component, [TestData] in the store. *)
Record TestOf (Id : Type) : Type := {
  t_id : Id;
  t_title : string;
  t_description : string;
  t_duration : Z;                      (* minutes *)
  t_totalQuestions : Z;
  t_questionBankId : string;
  t_questionBankTitle : string;
  t_category : string;
  t_difficulty : string;
  t_shuffleQuestions : option bool;
  t_passingScore : option float64
}.

Arguments Build_TestOf {Id}.
Arguments t_id {Id}.
Arguments t_title {Id}.
Arguments t_description {Id}.
Arguments t_duration {Id}.
Arguments t_totalQuestions {Id}.
Arguments t_questionBankId {Id}.
Arguments t_questionBankTitle {Id}.
Arguments t_category {Id}.
Arguments t_difficulty {Id}.
Arguments t_shuffleQuestions {Id}.
Arguments t_passingScore {Id}.

Definition Test : Type := TestOf string.
Definition TestData : Type := TestOf (option string).

Record UserAnswer : Type := {
  questionId : string;
  answer : JsValue;
  timeSpent : Z;
  flagged : bool
}.

(** ** The answer store *)

Definition updateAnswer (qid : string) (v : JsValue) (prev : list UserAnswer)
  : list UserAnswer :=
  map (fun ua =>
         if String.eqb (questionId ua) qid
         then {| questionId := questionId ua; answer := v;
                 timeSpent := timeSpent ua; flagged := flagged ua |}
         else ua) prev.

Definition toggleFlag (qid : string) (prev : list UserAnswer) : list UserAnswer :=
  map (fun ua =>
         if String.eqb (questionId ua) qid
         then {| questionId := questionId ua; answer := answer ua;
                 timeSpent := timeSpent ua; flagged := negb (flagged ua) |}
         else ua) prev.

(** The store seeded by [fetchTestData]. *)
Definition initialAnswers (qs : list Question) : list UserAnswer :=
  map (fun q => {| questionId := q_id q; answer := JNull;
                   timeSpent := 0; flagged := false |}) qs.

(** ** Scoring *)

Module Scoring.

(** 0.001, the tolerance of the numeric comparison. *)
Definition tolerance : float64 := of_decimal false 1 (-3).

(** The [mcq-multiple] case: equal [length], then every correct index is
    looked up in the answer. *)
Definition multipleCorrect (correctAnswers userAnswerArray : JsValue)
  : Completion bool :=
  bind (length_of correctAnswers) (fun lc =>
  bind (length_of userAnswerArray) (fun lu =>
    if bool_decide (lc = lu) then
      match correctAnswers with
      | JArr l => every l (includes userAnswerArray)
      | _ => Throw TypeError
      end
    else Normal false)).

(** The [numeric] case. *)
Definition numericCorrect (correctAnswer ans : JsValue) : bool :=
  let numericAnswer := parseFloat ans in
  let correctNumeric := parseFloat correctAnswer in
  Float64.lt (Math_abs (sub numericAnswer correctNumeric)) tolerance.

(** The [switch] on the question type, for a non-null answer. *)
Definition isCorrect (question : Question) (ans : JsValue) : Completion bool :=
  match q_type question with
  | mcq_single => Normal (strictEq ans (q_correctAnswer question))
  | mcq_multiple => multipleCorrect (q_correctAnswer question) ans
  | true_false => Normal (strictEq ans (q_correctAnswer question))
  | numeric => Normal (numericCorrect (q_correctAnswer question) ans)
  end.

Definition findAnswer (userAnswers : list UserAnswer) (qid : string)
  : option UserAnswer :=
  List.find (fun ua => String.eqb (questionId ua) qid) userAnswers.

(** One call of the [forEach] callback: whether the counter is
    incremented.  A question without an answer entry, or with a null
    answer, returns early. *)
Definition gradeQuestion (userAnswers : list UserAnswer) (question : Question)
  : Completion bool :=
  match findAnswer userAnswers (q_id question) with
  | None => Normal false
  | Some ua =>
      match answer ua with
      | JNull => Normal false
      | a => isCorrect question a
      end
  end.

(** The [forEach] loop, threading the counter [correctAnswers]. *)
Fixpoint countCorrect (userAnswers : list UserAnswer) (qs : list Question)
         (correctAnswers : Z) : Completion Z :=
  match qs with
  | [] => Normal correctAnswers
  | q :: qs' =>
      bind (gradeQuestion userAnswers q) (fun ok =>
        countCorrect userAnswers qs'
                     (if ok then correctAnswers + 1 else correctAnswers))
  end.

(** [Math.round((correctAnswers / questions.length) * 100)]. *)
Definition percentage (correctAnswers total : Z) : float64 :=
  Math_round (mul (div (of_Z correctAnswers) (of_Z total)) (of_Z 100)).

Definition calculateScore (questions : list Question)
           (userAnswers : list UserAnswer) : Completion float64 :=
  bind (countCorrect userAnswers questions 0) (fun correctAnswers =>
    Normal (percentage correctAnswers (Z.of_nat (length questions)))).

(** [test.passingScore || 70]. *)
Definition requiredScore (test : Test) : float64 :=
  match t_passingScore test with
  | Some p => if truthy p then p else of_Z 70
  | None => of_Z 70
  end.

(** [score >= (test.passingScore || 70)]. *)
Definition passed (score : float64) (test : Test) : bool :=
  Float64.ge score (requiredScore test).

End Scoring.

Import Scoring.

(** ** Shuffling: [questionsData.sort(() => Math.random() - 0.5)]

    The sort is the engine's.  Its comparator ignores both arguments, so
    all a run of the sort can observe is the sign of each successive
    comparator result: a run is a decision tree over these signs, whatever
    the algorithm of the engine. *)

Module Shuffle.

(** [Cmp k]: one call of the comparator, continued by [k] on the sign of
    its result; [Ret out]: the array is left as [out]. *)
Inductive SortRun (A : Type) : Type :=
| Ret (out : list A)
| Cmp (k : comparison -> SortRun A).
Arguments Ret {A} out.
Arguments Cmp {A} k.

(** The sign of [Math.random() - 0.5] for a draw [r] among the 2^53
    equally likely values r / 2^53 of [Math.random()]. *)
Definition draws : Z := 2 ^ 53.

Definition sign_of_draw (r : Z) : comparison := r ?= 2 ^ 52.

(** Probability of each sign. *)
Definition sign_prob (c : comparison) : Q :=
  match c with
  | Lt => 2 ^ 52 # Z.to_pos draws
  | Eq => 1 # Z.to_pos draws
  | Gt => (2 ^ 52 - 1) # Z.to_pos draws
  end.

(** A run on given draws, the [n]-th call consuming [rnd n]. *)
Fixpoint exec {A} (t : SortRun A) (rnd : nat -> Z) (n : nat) : list A :=
  match t with
  | Ret out => out
  | Cmp k => exec (k (sign_of_draw (rnd n))) rnd (S n)
  end.

(** Probability that a run ends on an array satisfying [ev]. *)
Fixpoint prob {A} (t : SortRun A) (ev : list A -> bool) : Q :=
  match t with
  | Ret out => if ev out then 1%Q else 0%Q
  | Cmp k =>
      (sign_prob Lt * prob (k Lt) ev
       + sign_prob Eq * prob (k Eq) ev
       + sign_prob Gt * prob (k Gt) ev)%Q
  end.

(** Insertion sort as a run: the element [x] moves left past [y] when
    the comparator result for them is negative.  One possible engine,
    used to run the model on examples. *)
Fixpoint insert_run {A} (x : A) (sorted_rev : list A) (acc : list A)
         (k : list A -> SortRun A) : SortRun A :=
  match sorted_rev with
  | [] => k (x :: acc)
  | y :: rest =>
      Cmp (fun c =>
             match c with
             | Lt => insert_run x rest (y :: acc) k
             | _ => k (rev_append sorted_rev (x :: acc))
             end)
  end.

Fixpoint insertion_from {A} (todo : list A) (sorted : list A) : SortRun A :=
  match todo with
  | [] => Ret sorted
  | x :: todo' => insert_run x (rev sorted) [] (insertion_from todo')
  end.

Definition insertion_engine {A} (l : list A) : SortRun A :=
  insertion_from l [].

End Shuffle.

Import Shuffle.

(** ** The document store and the component state *)

Inductive AttemptStatus : Type := in_progress | completed.

Definition isCompleted (s : AttemptStatus) : bool :=
  match s with
  | completed => true
  | in_progress => false
  end.

Record AttemptDoc : Type := {
  a_userId : string;
  a_userName : string;
  a_testId : string;
  a_testTitle : option string;
  a_status : AttemptStatus;
  a_startedAt : float64;
  a_completedAt : option Z;
  a_answers : list UserAnswer;
  a_score : option float64;
  a_timeSpent : float64;               (* minutes *)
  a_totalQuestions : option Z;
  a_answeredQuestions : option Z
}.

Record ActivityLog : Type := {
  l_userId : string;
  l_actionType : string;
  l_testId : string;
  l_score : float64;
  l_timeSpent : float64;
  l_timestamp : Z
}.

(** The collections the component reads and writes.  [addDoc] appends a
    document under a fresh identifier; no call of the component updates or
    deletes one. *)
Record Firestore : Type := {
  tests : gmap string TestData;
  questionBanks : gmap string (list string);
  questionDocs : gmap string QuestionData;
  testAttempts : list AttemptDoc;
  activityLogs : list ActivityLog
}.

Record UserData : Type := {
  uid : string;
  name : string;
  email : string
}.

(** The [useState] cells of the component. *)
Record Component : Type := {
  test : option Test;
  questions : list Question;
  currentQuestion : nat;
  timeRemaining : Z;
  userAnswers : list UserAnswer;
  showSubmitWarning : bool;
  testSubmitted : bool;
  loading : bool;
  testStarted : bool
}.

(** A call of [handleSubmitTest] suspended at its first [await]: what its
    continuation still needs. *)
Record PendingSubmit : Type := {
  p_user : UserData;
  p_score : float64;
  p_timeSpent : float64
}.

Record World : Type := {
  db : Firestore;
  ui : Component;
  userData : option UserData;
  testId : string;
  mounted : bool;                      (* false once [navigate] has left the page *)
  timer : option Z;                    (* pending timeout and the [timeRemaining] it captured *)
  startsInFlight : nat;                (* calls of [startTest] awaiting their write *)
  attemptWritesInFlight : list PendingSubmit;
  logWritesInFlight : nat;
  toasts : list string
}.

Inductive View : Type :=
| VLoading
| VNotAvailable
| VIntro
| VCompleted
| VRunning.

(** The screen the component renders, in the order of its early returns. *)
Definition view (c : Component) : View :=
  if loading c then VLoading
  else if bool_decide (test c = None) || bool_decide (questions c = []) then VNotAvailable
  else if negb (testStarted c) then VIntro
  else if testSubmitted c then VCompleted
  else VRunning.

(** State setters. *)

Definition with_ui (f : Component -> Component) (w : World) : World :=
  {| db := db w; ui := f (ui w); userData := userData w; testId := testId w;
     mounted := mounted w; timer := timer w; startsInFlight := startsInFlight w;
     attemptWritesInFlight := attemptWritesInFlight w;
     logWritesInFlight := logWritesInFlight w; toasts := toasts w |}.

Definition setTest (t : Test) (c : Component) : Component :=
  {| test := Some t; questions := questions c; currentQuestion := currentQuestion c;
     timeRemaining := timeRemaining c; userAnswers := userAnswers c;
     showSubmitWarning := showSubmitWarning c; testSubmitted := testSubmitted c;
     loading := loading c; testStarted := testStarted c |}.

Definition setQuestions (qs : list Question) (c : Component) : Component :=
  {| test := test c; questions := qs; currentQuestion := currentQuestion c;
     timeRemaining := timeRemaining c; userAnswers := userAnswers c;
     showSubmitWarning := showSubmitWarning c; testSubmitted := testSubmitted c;
     loading := loading c; testStarted := testStarted c |}.

Definition setCurrentQuestion (i : nat) (c : Component) : Component :=
  {| test := test c; questions := questions c; currentQuestion := i;
     timeRemaining := timeRemaining c; userAnswers := userAnswers c;
     showSubmitWarning := showSubmitWarning c; testSubmitted := testSubmitted c;
     loading := loading c; testStarted := testStarted c |}.

Definition setTimeRemaining (t : Z) (c : Component) : Component :=
  {| test := test c; questions := questions c; currentQuestion := currentQuestion c;
     timeRemaining := t; userAnswers := userAnswers c;
     showSubmitWarning := showSubmitWarning c; testSubmitted := testSubmitted c;
     loading := loading c; testStarted := testStarted c |}.

Definition setUserAnswers (f : list UserAnswer -> list UserAnswer) (c : Component)
  : Component :=
  {| test := test c; questions := questions c; currentQuestion := currentQuestion c;
     timeRemaining := timeRemaining c; userAnswers := f (userAnswers c);
     showSubmitWarning := showSubmitWarning c; testSubmitted := testSubmitted c;
     loading := loading c; testStarted := testStarted c |}.

Definition setShowSubmitWarning (b : bool) (c : Component) : Component :=
  {| test := test c; questions := questions c; currentQuestion := currentQuestion c;
     timeRemaining := timeRemaining c; userAnswers := userAnswers c;
     showSubmitWarning := b; testSubmitted := testSubmitted c;
     loading := loading c; testStarted := testStarted c |}.

Definition setTestSubmitted (b : bool) (c : Component) : Component :=
  {| test := test c; questions := questions c; currentQuestion := currentQuestion c;
     timeRemaining := timeRemaining c; userAnswers := userAnswers c;
     showSubmitWarning := showSubmitWarning c; testSubmitted := b;
     loading := loading c; testStarted := testStarted c |}.

Definition setLoading (b : bool) (c : Component) : Component :=
  {| test := test c; questions := questions c; currentQuestion := currentQuestion c;
     timeRemaining := timeRemaining c; userAnswers := userAnswers c;
     showSubmitWarning := showSubmitWarning c; testSubmitted := testSubmitted c;
     loading := b; testStarted := testStarted c |}.

Definition setTestStarted (b : bool) (c : Component) : Component :=
  {| test := test c; questions := questions c; currentQuestion := currentQuestion c;
     timeRemaining := timeRemaining c; userAnswers := userAnswers c;
     showSubmitWarning := showSubmitWarning c; testSubmitted := testSubmitted c;
     loading := loading c; testStarted := b |}.

Definition toast (title : string) (w : World) : World :=
  {| db := db w; ui := ui w; userData := userData w; testId := testId w;
     mounted := mounted w; timer := timer w; startsInFlight := startsInFlight w;
     attemptWritesInFlight := attemptWritesInFlight w;
     logWritesInFlight := logWritesInFlight w; toasts := toasts w ++ [title] |}.

(** [navigate('/student/tests')]: the page is left and the component is
    unmounted, which also clears its timeout. *)
Definition navigate (w : World) : World :=
  {| db := db w; ui := ui w; userData := userData w; testId := testId w;
     mounted := false; timer := None; startsInFlight := startsInFlight w;
     attemptWritesInFlight := attemptWritesInFlight w;
     logWritesInFlight := logWritesInFlight w; toasts := toasts w |}.

Definition setTimer (t : option Z) (w : World) : World :=
  {| db := db w; ui := ui w; userData := userData w; testId := testId w;
     mounted := mounted w; timer := t; startsInFlight := startsInFlight w;
     attemptWritesInFlight := attemptWritesInFlight w;
     logWritesInFlight := logWritesInFlight w; toasts := toasts w |}.

(** [addDoc(collection(db, 'testAttempts'), doc)]. *)
Definition addAttempt (d : AttemptDoc) (s : Firestore) : Firestore :=
  {| tests := tests s; questionBanks := questionBanks s;
     questionDocs := questionDocs s; testAttempts := testAttempts s ++ [d];
     activityLogs := activityLogs s |}.

(** [addDoc(collection(db, 'activityLogs'), doc)]. *)
Definition addLog (l : ActivityLog) (s : Firestore) : Firestore :=
  {| tests := tests s; questionBanks := questionBanks s;
     questionDocs := questionDocs s; testAttempts := testAttempts s;
     activityLogs := activityLogs s ++ [l] |}.

Definition with_db (f : Firestore -> Firestore) (w : World) : World :=
  {| db := f (db w); ui := ui w; userData := userData w; testId := testId w;
     mounted := mounted w; timer := timer w; startsInFlight := startsInFlight w;
     attemptWritesInFlight := attemptWritesInFlight w;
     logWritesInFlight := logWritesInFlight w; toasts := toasts w |}.

Definition with_inflight (starts : nat) (subs : list PendingSubmit) (logs : nat)
           (w : World) : World :=
  {| db := db w; ui := ui w; userData := userData w; testId := testId w;
     mounted := mounted w; timer := timer w; startsInFlight := starts;
     attemptWritesInFlight := subs; logWritesInFlight := logs;
     toasts := toasts w |}.

(** [userData.name || userData.email]. *)
Definition displayName (u : UserData) : string :=
  if String.eqb (name u) "" then email u else name u.

(** ** The session: loading, starting, the countdown, submitting *)

Section Session.

(** The engine's sort and the draws of [Math.random] in this session. *)
Variable engine : list Question -> SortRun Question.
Variable rnd : nat -> Z.

(** The query of [fetchTestData]: the completed attempts of this user on
    this test. *)
Definition completedAttempts (u t : string) (s : Firestore) : list AttemptDoc :=
  List.filter (fun a =>
            String.eqb (a_userId a) u && String.eqb (a_testId a) t
            && isCompleted (a_status a))
         (testAttempts s).

(** [{ id: testDoc.id, ...testDoc.data() }]: the spread comes second, so
    an [id] field of the stored data replaces the document identifier. *)
Definition withTestId (i : string) (t : TestData) : Test :=
  {| t_id := default i (t_id t); t_title := t_title t;
     t_description := t_description t;
     t_duration := t_duration t; t_totalQuestions := t_totalQuestions t;
     t_questionBankId := t_questionBankId t;
     t_questionBankTitle := t_questionBankTitle t; t_category := t_category t;
     t_difficulty := t_difficulty t; t_shuffleQuestions := t_shuffleQuestions t;
     t_passingScore := t_passingScore t |}.

(** [{ id: questionDoc.id, ...questionDoc.data() }], with the same
    precedence. *)
Definition withQuestionId (i : string) (q : QuestionData) : Question :=
  {| q_id := default i (q_id q); q_question := q_question q; q_type := q_type q;
     q_options := q_options q; q_correctAnswer := q_correctAnswer q;
     q_explanation := q_explanation q; q_category := q_category q;
     q_difficulty := q_difficulty q |}.

(** The questions of a bank, in its order; an identifier without a
    document is skipped. *)
Definition loadQuestions (s : Firestore) (ids : list string) : list Question :=
  omap (fun i => withQuestionId i <$> questionDocs s !! i) ids.

Definition shuffleIfEnabled (t : Test) (questionsData : list Question)
  : list Question :=
  match t_shuffleQuestions t with
  | Some true => exec (engine questionsData) rnd 0
  | _ => questionsData
  end.

Definition fetchTestData (u : UserData) (w : World) : World :=
  let w := with_ui (setLoading true) w in
  let finally := with_ui (setLoading false) in
  match tests (db w) !! testId w with
  | None => finally (navigate (toast "Error" w))
  | Some data =>
      let testData := withTestId (testId w) data in
      let w := with_ui (setTest testData) w in
      let attemptsSnapshot := completedAttempts (uid u) (testId w) (db w) in
      if (0 <? Z.of_nat (length attemptsSnapshot)) then
        finally (navigate (toast "Test Already Completed" w))
      else
        match questionBanks (db w) !! t_questionBankId testData with
        | None => finally (navigate (toast "Error" w))
        | Some bank =>
            let questionsData :=
              shuffleIfEnabled testData (loadQuestions (db w) bank) in
            let w := with_ui (setQuestions questionsData) w in
            let w := with_ui (setTimeRemaining (t_duration testData * 60)) w in
            let w := with_ui (setUserAnswers
                                (fun _ => initialAnswers questionsData)) w in
            finally w
        end
  end.

Definition initialComponent : Component :=
  {| test := None; questions := []; currentQuestion := 0%nat;
     timeRemaining := 0; userAnswers := []; showSubmitWarning := false;
     testSubmitted := false; loading := true; testStarted := false |}.

(** Mounting the page: the first effect loads the test when there are a
    test identifier and a signed-in user, and leaves the page otherwise.
    Until the test is started the countdown effect does nothing. *)
Definition mount (s : Firestore) (user : option UserData) (tid : string) : World :=
  let w := {| db := s; ui := initialComponent; userData := user; testId := tid;
              mounted := true; timer := None; startsInFlight := 0%nat;
              attemptWritesInFlight := []; logWritesInFlight := 0%nat;
              toasts := [] |} in
  match user with
  | Some u => if String.eqb tid "" then navigate w else fetchTestData u w
  | None => navigate w
  end.

(** [startTest], up to its [await]: the initial record is added. *)
Definition startTest (now : Z) (w : World) : World :=
  match userData w with
  | None => toast "Error" w
  | Some u =>
      let d := {| a_userId := uid u; a_userName := displayName u;
                  a_testId := testId w;
                  a_testTitle := t_title <$> test (ui w);
                  a_status := in_progress; a_startedAt := of_Z now;
                  a_completedAt := None; a_answers := []; a_score := None;
                  a_timeSpent := of_Z 0; a_totalQuestions := None;
                  a_answeredQuestions := None |} in
      with_inflight (S (startsInFlight w)) (attemptWritesInFlight w)
                    (logWritesInFlight w) (with_db (addAttempt d) w)
  end.

(** [startTest], after its [await]. *)
Definition startTest_resume (w : World) : World :=
  toast "Test Started" (with_ui (setTestStarted true) w).

(** [(test?.duration * 60 - timeRemaining) / 60], in minutes. *)
Definition minutesSpent (c : Component) : float64 :=
  match test c with
  | Some t => div (sub (mul (of_Z (t_duration t)) (of_Z 60))
                       (of_Z (timeRemaining c))) (of_Z 60)
  | None => NaN
  end.

Definition answeredCount (uas : list UserAnswer) : Z :=
  Z.of_nat (length (List.filter
                      (fun ua => negb (strictEq (answer ua) JNull)) uas)).

(** The record [handleSubmitTest] adds. *)
Definition completedDoc (now : Z) (u : UserData) (tid : string) (c : Component)
           (score : float64) : AttemptDoc :=
  let t := minutesSpent c in
  {| a_userId := uid u; a_userName := displayName u; a_testId := tid;
     a_testTitle := t_title <$> test c; a_status := completed;
     a_startedAt := sub (of_Z now) (mul (mul t (of_Z 60)) (of_Z 1000));
     a_completedAt := Some now; a_answers := userAnswers c;
     a_score := Some score; a_timeSpent := Math_round t;
     a_totalQuestions := Some (Z.of_nat (length (questions c)));
     a_answeredQuestions := Some (answeredCount (userAnswers c)) |}.

(** [handleSubmitTest], up to its first [await]: the score is computed
    and the final record is added.  An error thrown on the way is caught
    and reported by a toast. *)
Definition handleSubmitTest (now : Z) (w : World) : World :=
  match calculateScore (questions (ui w)) (userAnswers (ui w)) with
  | Throw _ => toast "Error" w
  | Normal score =>
      match userData w with
      | None => toast "Error" w
      | Some u =>
          let d := completedDoc now u (testId w) (ui w) score in
          let p := {| p_user := u; p_score := score;
                      p_timeSpent := Math_round (minutesSpent (ui w)) |} in
          with_inflight (startsInFlight w) (attemptWritesInFlight w ++ [p])
                        (logWritesInFlight w) (with_db (addAttempt d) w)
      end
  end.

(** [handleSubmitTest] between its two [await]s: the activity is logged. *)
Definition handleSubmitTest_log (now : Z) (p : PendingSubmit) (w : World) : World :=
  let l := {| l_userId := uid (p_user p); l_actionType := "test_complete";
              l_testId := testId w; l_score := p_score p;
              l_timeSpent := p_timeSpent p; l_timestamp := now |} in
  with_db (addLog l) w.

(** [handleSubmitTest] after its second [await]. *)
Definition handleSubmitTest_resume (w : World) : World :=
  toast "Test Submitted!" (with_ui (setTestSubmitted true) w).

(** The countdown effect, run with the state of the current render. *)
Definition timerEffect (now : Z) (w : World) : World :=
  let c := ui w in
  if (0 <? timeRemaining c) && negb (testSubmitted c) && testStarted c then
    setTimer (Some (timeRemaining c)) w
  else if (timeRemaining c =? 0) && testStarted c then
    handleSubmitTest now w
  else w.

(** The dependencies [timeRemaining, testSubmitted, testStarted]. *)
Definition deps (c : Component) : Z * bool * bool :=
  (timeRemaining c, testSubmitted c, testStarted c).

(** After a render: when a dependency has changed, the cleanup of the
    previous run clears its timeout and the effect runs again. *)
Definition rerender (now : Z) (before : Component) (w : World) : World :=
  if bool_decide (deps before = deps (ui w)) then w
  else timerEffect now (setTimer None w).

End Session.

(** ** Events

    What can happen to a mounted component: a click the current screen
    offers, the pending timeout firing, or a suspended handler resuming. *)

Inductive Event : Type :=
| StartClick                         (* "Start Test" *)
| StartWritten                       (* the write of [startTest] is acknowledged *)
| TimerFires                         (* the pending [setTimeout] callback *)
| GotoQuestion (i : nat)             (* a button of the navigation grid *)
| PreviousClick
| NextClick
| FlagClick
| PickOption (i : nat)               (* radio button of a single choice *)
| CheckOption (i : nat) (checked : bool)
| TypeNumeric (s : string)           (* the numeric input changes *)
| PickBoolean (b : bool)
| SubmitTestClick                    (* "Submit Test", on the last question *)
| ContinueTestClick
| ConfirmSubmitClick                 (* "Yes, Submit" *)
| AttemptWritten                     (* the first [await] of a submission resumes *)
| LogWritten.                        (* the second [await] of a submission resumes *)

Definition currentQuestionData (c : Component) : option Question :=
  questions c !! currentQuestion c.

(** [(currentAnswer?.answer as number[]) || []]. *)
Definition currentAnswers (c : Component) (q : Question) : list Z :=
  match answer <$> findAnswer (userAnswers c) (q_id q) with
  | Some (JArr l) => l
  | _ => []
  end.

(** A click on the running screen, on the question [q] it shows. *)
Definition runningClick (now : Z) (ev : Event) (q : Question) (w : World)
  : option World :=
  let c := ui w in
  let n := length (questions c) in
  match ev with
  | GotoQuestion i =>
      if bool_decide (i < n)%nat then Some (with_ui (setCurrentQuestion i) w)
      else None
  | PreviousClick =>
      if bool_decide (currentQuestion c = 0%nat) then None
      else Some (with_ui (setCurrentQuestion (Nat.max 0 (currentQuestion c - 1))) w)
  | NextClick =>
      if bool_decide (currentQuestion c = (n - 1)%nat) then None
      else Some (with_ui (setCurrentQuestion
                            (Nat.min (n - 1) (currentQuestion c + 1))) w)
  | FlagClick => Some (with_ui (setUserAnswers (toggleFlag (q_id q))) w)
  | PickOption i =>
      match q_type q, q_options q with
      | mcq_single, Some opts =>
          if bool_decide (i < length opts)%nat
          then Some (with_ui (setUserAnswers
                                (updateAnswer (q_id q) (JNum (of_Z (Z.of_nat i))))) w)
          else None
      | _, _ => None
      end
  | CheckOption i checked =>
      match q_type q, q_options q with
      | mcq_multiple, Some opts =>
          if bool_decide (i < length opts)%nat then
            let cur := currentAnswers c q in
            let next :=
              if checked then cur ++ [Z.of_nat i]
              else List.filter (fun a => negb (a =? Z.of_nat i)) cur in
            Some (with_ui (setUserAnswers (updateAnswer (q_id q) (JArr next))) w)
          else None
      | _, _ => None
      end
  | TypeNumeric s =>
      match q_type q with
      | numeric => Some (with_ui (setUserAnswers (updateAnswer (q_id q) (JStr s))) w)
      | _ => None
      end
  | PickBoolean b =>
      match q_type q with
      | true_false => Some (with_ui (setUserAnswers (updateAnswer (q_id q) (JBool b))) w)
      | _ => None
      end
  | SubmitTestClick =>
      if bool_decide (currentQuestion c = (n - 1)%nat)
      then Some (with_ui (setShowSubmitWarning true) w) else None
  | ContinueTestClick =>
      if showSubmitWarning c then Some (with_ui (setShowSubmitWarning false) w)
      else None
  | ConfirmSubmitClick =>
      if showSubmitWarning c then Some (handleSubmitTest now w) else None
  | _ => None
  end.

(** The handler of an event, [None] when the event cannot happen. *)
Definition handle (now : Z) (ev : Event) (w : World) : option World :=
  match ev with
  | StartClick =>
      match view (ui w) with
      | VIntro => Some (startTest now w)
      | _ => None
      end
  | StartWritten =>
      match startsInFlight w with
      | S k => Some (startTest_resume
                       (with_inflight k (attemptWritesInFlight w)
                                      (logWritesInFlight w) w))
      | O => None
      end
  | TimerFires =>
      match timer w with
      | Some t => Some (with_ui (setTimeRemaining (t - 1)) (setTimer None w))
      | None => None
      end
  | AttemptWritten =>
      match attemptWritesInFlight w with
      | p :: rest =>
          Some (handleSubmitTest_log now p
                  (with_inflight (startsInFlight w) rest
                                 (S (logWritesInFlight w)) w))
      | [] => None
      end
  | LogWritten =>
      match logWritesInFlight w with
      | S k => Some (handleSubmitTest_resume
                       (with_inflight (startsInFlight w)
                                      (attemptWritesInFlight w) k w))
      | O => None
      end
  | _ =>
      match view (ui w), currentQuestionData (ui w) with
      | VRunning, Some q => runningClick now ev q w
      | _, _ => None
      end
  end.

(** One step of a mounted component: the handler, then the render and its
    effect. *)
Definition step (now : Z) (ev : Event) (w : World) : option World :=
  if mounted w then rerender now (ui w) <$> handle now ev w else None.

(** A run: events with the time at which each happens. *)
Fixpoint run (evs : list (Z * Event)) (w : World) : option World :=
  match evs with
  | [] => Some w
  | (now, ev) :: evs' =>
      match step now ev w with
      | Some w' => run evs' w'
      | None => None
      end
  end.

(** Number of completed attempts of a user on a test. *)
Definition completedCount (u t : string) (s : Firestore) : nat :=
  length (completedAttempts u t s).

(** ** Sample data *)

Module Sample.

Definition question {Id} (i : Id) (ty : QuestionType) (correct : JsValue)
  : QuestionOf Id :=
  {| q_id := i; q_question := "?"; q_type := ty;
     q_options := Some ["a"; "b"; "c"; "d"]%string; q_correctAnswer := correct;
     q_explanation := ""; q_category := ""; q_difficulty := "" |}.

Definition answered (i : string) (v : JsValue) : UserAnswer :=
  {| questionId := i; answer := v; timeSpent := 0; flagged := false |}.

(** A test of five questions: two single choice, one multiple choice,
    one true/false, one numeric. *)
Definition five : list Question :=
  [ question "q1" mcq_single (JNum (of_Z 1));
    question "q2" mcq_single (JNum (of_Z 3));
    question "q3" mcq_multiple (JArr [0; 2]);
    question "q4" true_false (JBool true);
    question "q5" numeric (JNum (of_Z 42)) ].

(** Three right answers, one wrong answer, one question left unanswered. *)
Definition five_answers : list UserAnswer :=
  [ answered "q1" (JNum (of_Z 1));
    answered "q2" (JNum (of_Z 0));
    answered "q3" (JArr [2; 0]);
    answered "q4" JNull;
    answered "q5" (JStr "42.0009") ].

(** A test of [n] single-choice questions whose correct option is 1. *)
Definition singles (n : nat) : list Question :=
  map (fun i => question (pretty i) mcq_single (JNum (of_Z 1))) (seq 0 n).

(** The first [k] of [n] questions answered with option 1, the others
    left unanswered. *)
Definition first_right (k n : nat) : list UserAnswer :=
  map (fun i => answered (pretty i)
                  (if (i <? k)%nat then JNum (of_Z 1) else JNull)) (seq 0 n).

Definition aptitudeOf {Id} (i : Id) (passing : option float64) : TestOf Id :=
  {| t_id := i; t_title := "Aptitude"; t_description := ""; t_duration := 1;
     t_totalQuestions := 2; t_questionBankId := "bank";
     t_questionBankTitle := ""; t_category := ""; t_difficulty := "";
     t_shuffleQuestions := Some false; t_passingScore := passing |}.

Definition aptitude (passing : option float64) : Test := aptitudeOf "test" passing.


Definition store : Firestore :=
  {| tests := {[ "test"%string := aptitudeOf None (Some (of_Z 70)) ]};
     questionBanks := {[ "bank"%string := ["q1"; "q4"]%string ]};
     questionDocs :=
       {[ "q1"%string := question None mcq_single (JNum (of_Z 1));
          "q4"%string := question None true_false (JBool true) ]};
     testAttempts := []; activityLogs := [] |}.

(** A store written by another tool: the data of its question document
    [d1] carries an [id] field of its own. *)
Definition imported : Firestore :=
  {| tests := {[ "test"%string := aptitudeOf None (Some (of_Z 70)) ]};
     questionBanks := {[ "bank"%string := ["d1"; "q4"]%string ]};
     questionDocs :=
       {[ "d1"%string := question (Some "inner"%string) mcq_single (JNum (of_Z 1));
          "q4"%string := question None true_false (JBool true) ]};
     testAttempts := []; activityLogs := [] |}.

Definition student : UserData :=
  {| uid := "u1"; name := "Ada"; email := "ada@example.org" |}.

(** The page mounted on [store] by [student]. *)
Definition ready : World :=
  mount insertion_engine (fun _ => 0) store (Some student) "test".

(** The student starts the one-minute test and touches nothing until the
    countdown is over; then the two writes of the submission are
    acknowledged. *)
Definition untilExpiry : list (Z * Event) :=
  [(0, StartClick); (5, StartWritten)]
    ++ map (fun i => (1000 * Z.of_nat i, TimerFires)) (seq 1 60).

Definition acknowledged : list (Z * Event) :=
  [(60100, AttemptWritten); (60200, LogWritten)].

(** The student starts the test and submits it by hand after one tick. *)
Definition manualSubmit : list (Z * Event) :=
  [(0, StartClick); (5, StartWritten); (1000, TimerFires);
   (1200, PickOption 1); (1300, NextClick); (1400, SubmitTestClick);
   (1500, ConfirmSubmitClick)].

End Sample.

(** ** Notions used to state the properties *)

Definition indexSet (l : list Z) : gset Z := list_to_set l.

(** Whether grading a question increments the counter. *)
Definition gradedCorrect (userAnswers : list UserAnswer) (q : Question) : bool :=
  match gradeQuestion userAnswers q with
  | Normal true => true
  | _ => false
  end.

Definition correctCount (userAnswers : list UserAnswer) (qs : list Question) : Z :=
  Z.of_nat (length (List.filter (gradedCorrect userAnswers) qs)).

(** The formula of the specification in exact arithmetic:
    round (100 * c / n), a tie going up. *)
Definition spec_roundedPercent (c n : Z) : Z := (200 * c + n) / (2 * n).

Definition noThrow (userAnswers : list UserAnswer) (qs : list Question) : Prop :=
  Forall (fun q => exists b, gradeQuestion userAnswers q = Normal b) qs.

Definition agrees (c n : Z) : bool :=
  bool_decide (percentage c n = of_Z (spec_roundedPercent c n)).

(** The tags of the specification's data model: an index for a single
    choice, a set of indexes for a multiple choice, a boolean for
    true/false, a number (typed as text or not) for a numeric question;
    null is the absent answer. *)
Definition spec_tagMatches (ty : QuestionType) (v : JsValue) : bool :=
  match ty, v with
  | _, JNull => true
  | mcq_single, JNum _ => true
  | mcq_multiple, JArr _ => true
  | true_false, JBool _ => true
  | numeric, (JNum _ | JStr _) => true
  | _, _ => false
  end.

Definition withAnswer (v : JsValue) (ua : UserAnswer) : UserAnswer :=
  {| questionId := questionId ua; answer := v;
     timeSpent := timeSpent ua; flagged := flagged ua |}.

Abbreviation attempts w := (testAttempts (db w)).

(** Whether an outcome lists the questions in the order of [p]. *)
Definition sameOrder (p out : list Question) : bool :=
  bool_decide (map q_id out = map q_id p).

(** A shuffle is uniform when every ordering of the list has probability
    1 / n!. *)
Definition uniform (t : SortRun Question) (l : list Question) : Prop :=
  forall p, p ≡ₚ l ->
    (prob t (sameOrder p) == 1 # Pos.of_nat (fact (length l)))%Q.

Definition sign_weight (c : comparison) : Z :=
  match c with
  | Lt => 2 ^ 52
  | Eq => 1
  | Gt => 2 ^ 52 - 1
  end.

(** ** Invariants of a session *)

(** The countdown: the clock stays between zero and the duration of the
    test, and a timeout is pending only while the test is started and not
    submitted, for the current positive value of the clock. *)
Definition clockInvariant (w : World) : Prop :=
  0 <= timeRemaining (ui w)
  /\ match test (ui w) with
     | Some t => timeRemaining (ui w) <= t_duration t * 60
     | None => timeRemaining (ui w) = 0
     end
  /\ forall t, timer w = Some t ->
       t = timeRemaining (ui w) /\ 0 < t
       /\ testStarted (ui w) = true /\ testSubmitted (ui w) = false.

(** The answer store has one entry per loaded question, in their order,
    and the question shown is one of them. *)
Definition storeInvariant (w : World) : Prop :=
  map questionId (userAnswers (ui w)) = map q_id (questions (ui w))
  /\ (currentQuestion (ui w) <= length (questions (ui w)) - 1)%nat.

(** A submission is under way or done only on a started test. *)
Definition startedInvariant (w : World) : Prop :=
  (testSubmitted (ui w) = true \/ attemptWritesInFlight w <> []
   \/ logWritesInFlight w <> 0%nat) ->
  testStarted (ui w) = true.

(** The state after the submitted flag is set. *)
Definition finished (w : World) : Prop :=
  testStarted (ui w) = true /\ testSubmitted (ui w) = true /\ timer w = None.



(** ** The time display *)

(** [s.padStart(2, '0')]. *)
Definition padStart2 (s : string) : string :=
  match String.length s with
  | O => "00"
  | 1%nat => "0" +:+ s
  | _ => s
  end.

(** [Number.MAX_SAFE_INTEGER]: up to it in absolute value a whole number
    is a binary64 value, [Math.floor(n / 60)] is the whole quotient and
    [toString] prints the decimal digits of the number. *)
Definition MAX_SAFE_INTEGER : Z := 2 ^ 53 - 1.

(** [formatTime], on a whole number of seconds: [Math.floor(seconds / 60)]
    and [seconds % 60], each printed and padded to two characters.  Larger
    numbers are printed by [toString] with rounded digits or an exponent;
    the model covers the safe integers only and gives [None] beyond. *)
Definition formatTime (seconds : Z) : option string :=
  if bool_decide (Z.abs seconds <= MAX_SAFE_INTEGER) then
    Some (padStart2 (pretty (seconds / 60)) +:+ ":"
          +:+ padStart2 (pretty (Z.rem seconds 60)))
  else None.

(** Reading a display back: the digits before the first colon as minutes,
    the two digits after it as seconds. *)
Definition readTime (shown : string) : option Z :=
  match String.index 0 ":" shown with
  | Some k =>
      let '(m, rest_m) := take_digits (String.substring 0 k shown) in
      let '(sec, rest_s) :=
        take_digits (String.substring (S k) (String.length shown - S k) shown) in
      if bool_decide (rest_m = ""%string /\ rest_s = ""%string
                      /\ (0 < length m)%nat /\ length sec = 2%nat)
      then Some (60 * digits_value m + digits_value sec) else None
  | None => None
  end.

(** A string of decimal digits, and the number it denotes. *)
Fixpoint allDigits (s : string) : bool :=
  match s with
  | String c r => bool_decide (is_Some (digit_of c)) && allDigits r
  | EmptyString => true
  end.

Definition strValue (s : string) : Z := digits_value (fst (take_digits s)).

(** ** Checks by enumeration *)

(** The score of [c] right answers out of [n] is a whole number between 0
    and 100, the exactly rounded percentage or one below it, 0 only without
    a right answer and 100 only with all of them. *)
Definition scoreInRange (c n : Z) : bool :=
  let p := percentage c n in
  let r := spec_roundedPercent c n in
  let k := if bool_decide (p = of_Z r) then r else r - 1 in
  bool_decide (p = of_Z k)
  && (0 <=? k) && (k <=? 100)
  && Bool.eqb (k =? 0) (c =? 0) && Bool.eqb (k =? 100) (c =? n).



(** * Properties *)

Ltac conjuncts := repeat match goal with |- _ /\ _ => split end.

(** ** Scoring one question *)

Section GradeQuestion.

Variable userAnswers : list UserAnswer.
Variable question : Question.
Variable ua : UserAnswer.
Hypothesis Hfound : findAnswer userAnswers (q_id question) = Some ua.

(** With a non-null answer, grading is the [switch] on the type. *)
Lemma gradeQuestion_answered :
  answer ua <> JNull ->
  gradeQuestion userAnswers question = isCorrect question (answer ua).
Proof.
  intros Hnn. unfold gradeQuestion. rewrite Hfound.
  destruct (answer ua); congruence.
Qed.

(** A null answer never counts. *)
Lemma gradeQuestion_unanswered :
  answer ua = JNull -> gradeQuestion userAnswers question = Normal false.
Proof.
  intros Hn. unfold gradeQuestion. rewrite Hfound, Hn. reflexivity.
Qed.

End GradeQuestion.

(** [every] over an array answer is a plain membership test. *)
Lemma every_includes_array (cor ans : list Z) :
  every cor (includes (JArr ans))
  = Normal (forallb (fun a => existsb (Z.eqb a) ans) cor).
Proof.
  induction cor as [|a cor IH]; simpl; [reflexivity|].
  destruct (existsb (Z.eqb a) ans); simpl; [exact IH | reflexivity].
Qed.

Lemma existsb_eqb_elem_of (a : Z) (l : list Z) :
  existsb (Z.eqb a) l = true <-> a ∈ l.
Proof.
  rewrite existsb_exists. split.
  - intros (x & Hin & Heq). apply Z.eqb_eq in Heq. subst x.
    now apply list_elem_of_In.
  - intros Hin. exists a. split; [now apply list_elem_of_In | apply Z.eqb_refl].
Qed.

(** The multiple-choice comparison on two arrays: same length, and every
    correct index occurs in the answer. *)
Lemma multipleCorrect_arrays (cor ans : list Z) :
  multipleCorrect (JArr cor) (JArr ans)
  = Normal (bool_decide (length cor = length ans)
            && forallb (fun a => existsb (Z.eqb a) ans) cor).
Proof.
  unfold multipleCorrect. simpl.
  destruct (decide (length cor = length ans)) as [Hlen|Hlen].
  - rewrite bool_decide_eq_true_2 by (now rewrite Hlen).
    rewrite (bool_decide_eq_true_2 (length cor = length ans)) by assumption.
    simpl. apply every_includes_array.
  - rewrite bool_decide_eq_false_2.
    + now rewrite (bool_decide_eq_false_2 (length cor = length ans)) by assumption.
    + intros Heq. apply Hlen. injection Heq as Heq. lia.
Qed.

Lemma multipleCorrect_arrays_true (cor ans : list Z) :
  multipleCorrect (JArr cor) (JArr ans) = Normal true
  <-> length cor = length ans /\ (forall i, i ∈ cor -> i ∈ ans).
Proof.
  rewrite multipleCorrect_arrays. split.
  - intros Heq. injection Heq as Heq. apply andb_true_iff in Heq as [Hlen Hall].
    apply bool_decide_eq_true_1 in Hlen. split; [assumption|].
    intros i Hi. rewrite forallb_forall in Hall.
    apply existsb_eqb_elem_of, Hall. now apply list_elem_of_In.
  - intros [Hlen Hall]. f_equal. apply andb_true_iff. split.
    + now apply bool_decide_eq_true_2.
    + apply forallb_forall. intros i Hi.
      apply existsb_eqb_elem_of, Hall. now apply list_elem_of_In.
Qed.

(** For arrays without repetition the rule is the equality of the two
    index sets. *)
Lemma same_size_subset_sets (cor ans : list Z) :
  NoDup cor -> NoDup ans ->
  (length cor = length ans /\ (forall i, i ∈ cor -> i ∈ ans))
  <-> (size (list_to_set ans : gset Z) = size (list_to_set cor : gset Z)
       /\ (list_to_set cor : gset Z) ⊆ list_to_set ans).
Proof.
  intros Hc Ha.
  rewrite !size_list_to_set by assumption.
  split; intros [Hlen Hsub]; (split; [lia|]).
  - intros i Hi. apply elem_of_list_to_set. apply Hsub.
    now apply elem_of_list_to_set in Hi.
  - intros i Hi. specialize (Hsub i).
    rewrite !elem_of_list_to_set in Hsub. auto.
Qed.

Lemma same_size_subset_equal (X Y : gset Z) :
  size Y = size X -> X ⊆ Y -> X = Y.
Proof.
  intros Hsize Hsub. apply set_subseteq_size_eq; [assumption | lia].
Qed.

(** ** Multiple choice *)

Lemma multiple_choice_graded (userAnswers : list UserAnswer) (question : Question)
      (ua : UserAnswer) (cor ans : list Z) :
  q_type question = mcq_multiple ->
  q_correctAnswer question = JArr cor ->
  findAnswer userAnswers (q_id question) = Some ua ->
  answer ua = JArr ans ->
  gradeQuestion userAnswers question = multipleCorrect (JArr cor) (JArr ans).
Proof.
  intros Hty Hcor Hfound Hans.
  rewrite (gradeQuestion_answered _ _ _ Hfound) by (rewrite Hans; discriminate).
  unfold isCorrect. now rewrite Hty, Hcor, Hans.
Qed.

(** C5. A multiple-choice answer is scored correct exactly when the answer
    index set and the correct index set have the same cardinality and every
    correct index is in the answer set; it is never an error.  So the
    answer {0,2} to the correct set {0,2} is correct, and the answers
    {0,2,3} and {0} are not. *)
Theorem multiple_choice_scoring :
  (forall (userAnswers : list UserAnswer) (question : Question) (ua : UserAnswer)
          (cor ans : list Z),
      q_type question = mcq_multiple ->
      q_correctAnswer question = JArr cor ->
      findAnswer userAnswers (q_id question) = Some ua ->
      answer ua = JArr ans ->
      NoDup cor -> NoDup ans ->
      gradeQuestion userAnswers question
      = Normal (bool_decide (size (indexSet ans) = size (indexSet cor)
                             /\ indexSet cor ⊆ indexSet ans)))
  /\ (let q := Sample.question "q3" mcq_multiple (JArr [0; 2]) in
      gradeQuestion [Sample.answered "q3" (JArr [0; 2])] q = Normal true
      /\ gradeQuestion [Sample.answered "q3" (JArr [0; 2; 3])] q = Normal false
      /\ gradeQuestion [Sample.answered "q3" (JArr [0])] q = Normal false).
Proof.
  split; [|repeat split; reflexivity].
  intros uas q ua cor ans Hty Hcor Hfound Hans Hnc Hna.
  rewrite (multiple_choice_graded uas q ua cor ans) by assumption.
  pose proof (multipleCorrect_arrays_true cor ans) as Htrue.
  rewrite (same_size_subset_sets cor ans Hnc Hna) in Htrue.
  rewrite multipleCorrect_arrays in *. f_equal.
  destruct (bool_decide (length cor = length ans)
            && forallb (fun a => existsb (Z.eqb a) ans) cor) eqn:Hb.
  - symmetry. apply bool_decide_eq_true_2. now apply Htrue.
  - symmetry. apply bool_decide_eq_false_2. intros Hset.
    apply Htrue in Hset. discriminate.
Qed.

Lemma multiple_choice_scoring_witness :
  gradeQuestion [Sample.answered "q3" (JArr [2; 0])]
                (Sample.question "q3" mcq_multiple (JArr [0; 2]))
  = Normal (bool_decide (size (indexSet [2; 0]) = size (indexSet [0; 2])
                         /\ indexSet [0; 2] ⊆ indexSet [2; 0])).
Proof.
  apply (proj1 multiple_choice_scoring
               [Sample.answered "q3" (JArr [2; 0])]
               (Sample.question "q3" mcq_multiple (JArr [0; 2]))
               (Sample.answered "q3" (JArr [2; 0])) [0; 2] [2; 0]);
    try reflexivity; apply (bool_decide_unpack _); vm_compute; exact I.
Defined.

(** With equal cardinalities the containment is the equality of the sets. *)
Lemma multiple_choice_set_equality (cor ans : list Z) :
  NoDup cor -> NoDup ans ->
  multipleCorrect (JArr cor) (JArr ans) = Normal true
  <-> indexSet cor = indexSet ans.
Proof.
  intros Hnc Hna. rewrite multipleCorrect_arrays_true.
  rewrite (same_size_subset_sets cor ans Hnc Hna). fold (indexSet cor) (indexSet ans).
  split.
  - intros [Hsize Hsub]. now apply same_size_subset_equal.
  - intros Heq. rewrite Heq. split; [reflexivity | set_solver].
Qed.

(** ** Numeric answers *)

Lemma numeric_graded (userAnswers : list UserAnswer) (question : Question)
      (ua : UserAnswer) :
  q_type question = numeric ->
  findAnswer userAnswers (q_id question) = Some ua ->
  answer ua <> JNull ->
  gradeQuestion userAnswers question
  = Normal (numericCorrect (q_correctAnswer question) (answer ua)).
Proof.
  intros Hty Hfound Hnn.
  rewrite (gradeQuestion_answered _ _ _ Hfound Hnn).
  unfold isCorrect. now rewrite Hty.
Qed.




(** A NaN on either side makes the comparison false. *)
Lemma numericCorrect_nan_answer (correct ans : JsValue) :
  parseFloat ans = NaN -> numericCorrect correct ans = false.
Proof.
  intros Hnan. unfold numericCorrect. rewrite Hnan. reflexivity.
Qed.

(** No question type but the multiple choice can throw. *)
Lemma isCorrect_numeric_normal (question : Question) (ans : JsValue) :
  q_type question = numeric ->
  isCorrect question ans = Normal (numericCorrect (q_correctAnswer question) ans).
Proof. intros Hty. unfold isCorrect. now rewrite Hty. Qed.

Lemma gradeQuestion_numeric_normal (userAnswers : list UserAnswer)
      (question : Question) :
  q_type question = numeric ->
  exists b, gradeQuestion userAnswers question = Normal b.
Proof.
  intros Hty. unfold gradeQuestion.
  destruct (findAnswer userAnswers (q_id question)) as [ua|]; [|eauto].
  destruct (answer ua); eauto; rewrite isCorrect_numeric_normal by assumption; eauto.
Qed.

Lemma countCorrect_numeric_normal (userAnswers : list UserAnswer)
      (qs : list Question) :
  Forall (fun q => q_type q = numeric) qs ->
  forall c, exists c', countCorrect userAnswers qs c = Normal c'.
Proof.
  induction 1 as [|q qs Hq _ IH]; intros c; simpl; [eauto|].
  destruct (gradeQuestion_numeric_normal userAnswers q Hq) as [b ->]. simpl.
  apply IH.
Qed.

(** C10. Scoring a numeric question is total on string answers: it never
    throws, and a string that [parseFloat] reads as NaN - the empty string
    of a cleared input is one - is scored incorrect. *)
Theorem numeric_scoring_total :
  (forall (userAnswers : list UserAnswer) (question : Question) (ua : UserAnswer)
          (s : string),
      q_type question = numeric ->
      findAnswer userAnswers (q_id question) = Some ua ->
      answer ua = JStr s ->
      (exists b, gradeQuestion userAnswers question = Normal b)
      /\ (parseFloat_string s = NaN ->
          gradeQuestion userAnswers question = Normal false))
  /\ parseFloat_string "" = NaN
  /\ (forall (qs : list Question) (userAnswers : list UserAnswer),
         Forall (fun q => q_type q = numeric) qs ->
         exists score, calculateScore qs userAnswers = Normal score).
Proof.
  split; [|split; [reflexivity|]].
  - intros uas q ua s Hty Hfound Hans. split.
    + now apply gradeQuestion_numeric_normal.
    + intros Hnan.
      rewrite (numeric_graded uas q ua Hty Hfound) by (rewrite Hans; discriminate).
      f_equal. apply numericCorrect_nan_answer. now rewrite Hans.
  - intros qs uas Hall. unfold calculateScore.
    destruct (countCorrect_numeric_normal uas qs Hall 0) as [c ->]. simpl. eauto.
Qed.

Lemma numeric_scoring_total_witness :
  (exists b, gradeQuestion [Sample.answered "q5" (JStr "")]
                           (Sample.question "q5" numeric (JNum (of_Z 42))) = Normal b)
  /\ gradeQuestion [Sample.answered "q5" (JStr "")]
                   (Sample.question "q5" numeric (JNum (of_Z 42))) = Normal false.
Proof.
  destruct (proj1 numeric_scoring_total
                  [Sample.answered "q5" (JStr "")]
                  (Sample.question "q5" numeric (JNum (of_Z 42)))
                  (Sample.answered "q5" (JStr "")) ""
                  eq_refl eq_refl eq_refl) as [Hb Hnan].
  split; [exact Hb | apply Hnan; reflexivity].
Defined.

(** ** The score of a test *)

Lemma countCorrect_normal (userAnswers : list UserAnswer) (qs : list Question) :
  noThrow userAnswers qs ->
  forall c, countCorrect userAnswers qs c = Normal (c + correctCount userAnswers qs).
Proof.
  unfold correctCount.
  induction 1 as [|q qs [b Hb] _ IH]; intros c; simpl.
  - f_equal. lia.
  - rewrite Hb. simpl. rewrite IH. unfold gradedCorrect. rewrite Hb.
    destruct b; simpl; f_equal; lia.
Qed.

(** Every question is in the denominator; only the answers graded correct
    are in the numerator. *)
Lemma calculateScore_counts (qs : list Question) (userAnswers : list UserAnswer) :
  noThrow userAnswers qs ->
  calculateScore qs userAnswers
  = Normal (percentage (correctCount userAnswers qs) (Z.of_nat (length qs))).
Proof.
  intros Hok. unfold calculateScore.
  rewrite (countCorrect_normal _ _ Hok). reflexivity.
Qed.

(** An unanswered question is graded incorrect. *)
Lemma unanswered_not_counted (userAnswers : list UserAnswer) (q : Question)
      (ua : UserAnswer) :
  findAnswer userAnswers (q_id q) = Some ua -> answer ua = JNull ->
  gradedCorrect userAnswers q = false.
Proof.
  intros Hfound Hnull. unfold gradedCorrect.
  now rewrite (gradeQuestion_unanswered _ _ _ Hfound Hnull).
Qed.

(** Three right answers out of five give 60. *)
Lemma score_three_of_five :
  calculateScore Sample.five Sample.five_answers = Normal (of_Z 60)
  /\ correctCount Sample.five_answers Sample.five = 3
  /\ passed (of_Z 60) (Sample.aptitude (Some (of_Z 70))) = false.
Proof. repeat split; vm_compute; reflexivity. Qed.

(** On tests of fewer than 40 questions the computed score is the exactly
    rounded percentage. *)
Lemma percentage_exact_below_40 (c n : Z) :
  0 <= c <= n -> 1 <= n < 40 ->
  percentage c n = of_Z (spec_roundedPercent c n).
Proof.
  intros Hc Hn.
  assert (forallb (fun n' => forallb (fun c' => agrees (Z.of_nat c') (Z.of_nat n'))
                                     (seq 0 (S n'))) (seq 1 39) = true) as Hall
      by (vm_compute; reflexivity).
  rewrite forallb_forall in Hall.
  specialize (Hall (Z.to_nat n)). rewrite forallb_forall in Hall.
  assert (agrees (Z.of_nat (Z.to_nat c)) (Z.of_nat (Z.to_nat n)) = true) as Hag.
  { apply Hall; apply in_seq; lia. }
  rewrite !Z2Nat.id in Hag by lia.
  now apply bool_decide_eq_true_1 in Hag.
Qed.

(** C4. A test of 40 questions with 23 right answers, the other questions
    unanswered: the quotient 23/40 is rounded below 0.575, its product with
    100 is below 57.5, and the score is 57, where the exactly rounded
    percentage is 58. *)
Theorem score_23_of_40 :
  calculateScore (Sample.singles 40) (Sample.first_right 23 40) = Normal (of_Z 57)
  /\ correctCount (Sample.first_right 23 40) (Sample.singles 40) = 23
  /\ Float64.lt (mul (div (of_Z 23) (of_Z 40)) (of_Z 100)) (of_decimal false 575 (-1))
     = true
  /\ spec_roundedPercent 23 40 = 58.
Proof. repeat split; vm_compute; reflexivity. Qed.

(** ** The pass threshold *)

Lemma truthy_of_Z (z : Z) : 1 <= z <= 100 -> truthy (of_Z z) = true.
Proof.
  intros Hz.
  assert (forallb (fun n => truthy (of_Z (Z.of_nat n))) (seq 1 100) = true) as Hall
      by (vm_compute; reflexivity).
  rewrite forallb_forall in Hall.
  specialize (Hall (Z.to_nat z)). rewrite Z2Nat.id in Hall by lia.
  apply Hall, in_seq. lia.
Qed.

Lemma ge_of_Z (s z : Z) :
  0 <= s <= 100 -> 0 <= z <= 100 -> Float64.ge (of_Z s) (of_Z z) = (z <=? s).
Proof.
  intros Hs Hz.
  assert (forallb (fun a => forallb (fun b =>
            Bool.eqb (Float64.ge (of_Z (Z.of_nat a)) (of_Z (Z.of_nat b)))
                     (Z.of_nat b <=? Z.of_nat a)) (seq 0 101)) (seq 0 101) = true)
    as Hall by (vm_compute; reflexivity).
  rewrite forallb_forall in Hall.
  specialize (Hall (Z.to_nat s)). rewrite forallb_forall in Hall.
  specialize (Hall ltac:(apply in_seq; lia) (Z.to_nat z) ltac:(apply in_seq; lia)).
  rewrite !Z2Nat.id in Hall by lia. now apply Bool.eqb_prop in Hall.
Qed.

(** C7. A test whose passing score is 0: every score from 0 to 100 is at
    least the passing score, yet the test is passed only from 70 on.  The
    [||] of [test.passingScore || 70] takes the passing score 0 for a
    missing one, so a score below 70 fails a test that asks for 0. *)
Theorem passing_score_zero_held_to_70 (s : Z) (test : Test) :
  0 <= s <= 100 ->
  t_passingScore test = Some (of_Z 0) ->
  Float64.ge (of_Z s) (of_Z 0) = true
  /\ passed (of_Z s) test = (70 <=? s)
  /\ (s < 70 -> passed (of_Z s) test = false).
Proof.
  intros Hs Hp.
  assert (passed (of_Z s) test = (70 <=? s)) as Hpassed.
  { unfold passed, requiredScore. rewrite Hp.
    change (truthy (of_Z 0)) with false. cbn iota. apply ge_of_Z; lia. }
  conjuncts.
  - rewrite ge_of_Z by lia. apply Z.leb_le. lia.
  - exact Hpassed.
  - intros Hlt. rewrite Hpassed. apply Z.leb_gt. lia.
Qed.

Lemma passing_score_zero_held_to_70_witness :
  Float64.ge (of_Z 50) (of_Z 0) = true
  /\ passed (of_Z 50) (Sample.aptitude (Some (of_Z 0))) = false.
Proof.
  destruct (passing_score_zero_held_to_70 50 (Sample.aptitude (Some (of_Z 0)))
                                          ltac:(lia) eq_refl)
    as (Hge & _ & Hfail).
  split; [exact Hge | apply Hfail; lia].
Defined.

(** The threshold of [passed] is the passing score of the test when that
    is a number other than 0, -0 and NaN - every whole number from 1 to
    100 is one -, and 70 in all other cases: no passing score, 0, -0 or
    NaN.  A NaN score passes no test. *)
Theorem passed_rule :
  (forall (score : float64) (test : Test) (p : float64),
      t_passingScore test = Some p -> truthy p = true ->
      passed score test = Float64.ge score p)
  /\ (forall (s z : Z) (test : Test),
         0 <= s <= 100 -> 1 <= z <= 100 ->
         t_passingScore test = Some (of_Z z) ->
         passed (of_Z s) test = (z <=? s))
  /\ (forall (score : float64) (test : Test),
         t_passingScore test = None \/ t_passingScore test = Some (of_Z 0) ->
         passed score test = Float64.ge score (of_Z 70))
  /\ (forall (score : float64) (test : Test) (p : float64),
         t_passingScore test = Some p ->
         p = S754_zero false \/ p = S754_zero true \/ p = NaN ->
         passed score test = Float64.ge score (of_Z 70))
  /\ (forall (p : float64),
         truthy p = false
         <-> p = S754_zero false \/ p = S754_zero true \/ p = NaN)
  /\ (forall (s : Z) (test : Test),
         0 <= s <= 100 ->
         t_passingScore test = None \/ t_passingScore test = Some NaN
         \/ t_passingScore test = Some (S754_zero true) ->
         passed (of_Z s) test = (70 <=? s))
  /\ (forall (test : Test), passed NaN test = false).
Proof.
  unfold passed, requiredScore. conjuncts.
  - intros score t p -> ->. reflexivity.
  - intros s z t Hs Hz ->. rewrite truthy_of_Z by assumption.
    apply ge_of_Z; lia.
  - intros score t [-> | ->]; reflexivity.
  - intros score t p -> [-> | [-> | ->]]; reflexivity.
  - intros p. split.
    + destruct p as [[|]|[|]| |sg m e]; simpl; intros H;
        solve [discriminate | auto].
    + intros [-> | [-> | ->]]; reflexivity.
  - intros s t Hs [-> | [-> | ->]]; cbn [truthy]; apply ge_of_Z; lia.
  - intros t. destruct (t_passingScore t) as [p|]; [|reflexivity].
    destruct (truthy p); [|reflexivity].
    unfold Float64.ge, SFleb. now destruct p.
Qed.

Lemma passed_rule_witness :
  passed (of_Z 60) (Sample.aptitude (Some (of_Z 55))) = true
  /\ passed (of_Z 60) (Sample.aptitude None) = false
  /\ passed (of_Z 60) (Sample.aptitude (Some NaN)) = false
  /\ passed (of_Z 60) (Sample.aptitude (Some (S754_zero true))) = false.
Proof.
  destruct passed_rule as (_ & Hz & _ & _ & _ & H70 & _).
  conjuncts.
  - apply (Hz 60 55 (Sample.aptitude (Some (of_Z 55)))); [lia | lia | reflexivity].
  - apply (H70 60 (Sample.aptitude None)); [lia | now left].
  - apply (H70 60 (Sample.aptitude (Some NaN))); [lia | right; now left].
  - apply (H70 60 (Sample.aptitude (Some (S754_zero true)))); [lia | right; now right].
Defined.

(** ** The answer store *)

(** C9, as the claim states it, fails: a string given for a single-choice
    question is stored as its answer. *)
Lemma updateAnswer_stores_mismatch :
  let q := Sample.question "q1" mcq_single (JNum (of_Z 1)) in
  spec_tagMatches (q_type q) (JStr "abc") = false
  /\ updateAnswer (q_id q) (JStr "abc") (initialAnswers [q])
     = [Sample.answered "q1" (JStr "abc")].
Proof. split; reflexivity. Qed.

Lemma findAnswer_updateAnswer (qid : string) (v : JsValue) (prev : list UserAnswer) :
  findAnswer (updateAnswer qid v prev) qid = withAnswer v <$> findAnswer prev qid.
Proof.
  unfold findAnswer, updateAnswer.
  induction prev as [|ua prev IH]; simpl; [reflexivity|].
  destruct (String.eqb (questionId ua) qid) eqn:Heq; simpl; rewrite Heq.
  - reflexivity.
  - exact IH.
Qed.

(** C9, amended. [updateAnswer] checks no tag and never fails: whatever
    the value, it becomes the answer of every entry of the question, the
    other entries and the order of the store are unchanged. *)
Theorem updateAnswer_stores_any_value :
  forall (qid : string) (v : JsValue) (prev : list UserAnswer),
    updateAnswer qid v prev
    = map (fun ua => if String.eqb (questionId ua) qid then withAnswer v ua else ua) prev
    /\ map questionId (updateAnswer qid v prev) = map questionId prev
    /\ findAnswer (updateAnswer qid v prev) qid = withAnswer v <$> findAnswer prev qid
    /\ (forall ua, ua ∈ updateAnswer qid v prev -> questionId ua = qid -> answer ua = v)
    /\ (forall ua, ua ∈ prev -> questionId ua <> qid -> ua ∈ updateAnswer qid v prev).
Proof.
  intros qid v prev. split; [reflexivity|]. split; [|split; [|split]].
  - unfold updateAnswer. rewrite map_map. apply map_ext.
    intros ua. now destruct (String.eqb (questionId ua) qid).
  - apply findAnswer_updateAnswer.
  - intros ua Hin Hid. unfold updateAnswer in Hin.
    apply list_elem_of_fmap in Hin as (ua0 & -> & _).
    destruct (String.eqb (questionId ua0) qid) eqn:Heq; [reflexivity|].
    apply String.eqb_neq in Heq. contradiction.
  - intros ua Hin Hne. unfold updateAnswer.
    apply list_elem_of_fmap. exists ua. split; [|assumption].
    apply String.eqb_neq in Hne. now rewrite Hne.
Qed.

(** ** The attempts collection *)

Lemma handleSubmitTest_adds (now : Z) (w : World) (u : UserData) (score : float64) :
  userData w = Some u ->
  calculateScore (questions (ui w)) (userAnswers (ui w)) = Normal score ->
  attempts (handleSubmitTest now w)
  = attempts w ++ [completedDoc now u (testId w) (ui w) score].
Proof.
  intros Hu Hscore. unfold handleSubmitTest. now rewrite Hscore, Hu.
Qed.

Lemma handleSubmitTest_ui (now : Z) (w : World) :
  ui (handleSubmitTest now w) = ui w /\ mounted (handleSubmitTest now w) = mounted w.
Proof.
  unfold handleSubmitTest.
  destruct (calculateScore _ _); [destruct (userData w)|]; split; reflexivity.
Qed.

Lemma handleSubmitTest_prefix (now : Z) (w : World) :
  attempts w `prefix_of` attempts (handleSubmitTest now w).
Proof.
  unfold handleSubmitTest.
  destruct (calculateScore _ _); [destruct (userData w)|]; simpl;
    try reflexivity.
  now apply prefix_app_r.
Qed.

Lemma rerender_prefix (now : Z) (before : Component) (w : World) :
  attempts w `prefix_of` attempts (rerender now before w).
Proof.
  unfold rerender, timerEffect.
  repeat case_match; simpl; try reflexivity.
  apply (handleSubmitTest_prefix now (setTimer None w)).
Qed.

Lemma handle_prefix (now : Z) (ev : Event) (w w' : World) :
  handle now ev w = Some w' -> attempts w `prefix_of` attempts w'.
Proof.
  unfold handle, runningClick, startTest.
  intros H; repeat (case_match; simplify_eq); simpl; try reflexivity;
    try (now apply prefix_app_r); try apply handleSubmitTest_prefix.
Qed.

(** No step changes or removes a stored attempt. *)
Lemma step_prefix (now : Z) (ev : Event) (w w' : World) :
  step now ev w = Some w' -> attempts w `prefix_of` attempts w'.
Proof.
  unfold step. destruct (mounted w); [|discriminate].
  destruct (handle now ev w) as [w1|] eqn:Hh; [|discriminate].
  simpl. intros [= <-]. etransitivity.
  - exact (handle_prefix _ _ _ _ Hh).
  - apply rerender_prefix.
Qed.

Lemma run_prefix (evs : list (Z * Event)) (w w' : World) :
  run evs w = Some w' -> attempts w `prefix_of` attempts w'.
Proof.
  revert w. induction evs as [|[now ev] evs IH]; simpl; intros w.
  - now intros [= ->].
  - destruct (step now ev w) as [w1|] eqn:Hs; [|discriminate].
    intros Hr. etransitivity; [exact (step_prefix _ _ _ _ Hs) | now apply IH].
Qed.

(** C2, as the claim states it, fails: after a submission the record
    created at the start is still in progress and without a score, and the
    completed record is a second one. *)
Lemma submission_leaves_initial_record :
  (fun w => (map a_status (attempts w), map a_score (attempts w)))
    <$> run Sample.manualSubmit Sample.ready
  = Some ([in_progress; completed], [None; Some (of_Z 50)]).
Proof. vm_compute. reflexivity. Qed.

(** C2, amended. A submission adds one new record to the attempts, with the
    status completed, the completion time, the score and the minutes used;
    the records already stored, the one created at the start among them,
    stay as they are, at the submission and at every other step. *)
Theorem submission_adds_a_record :
  (forall (now : Z) (w : World) (u : UserData) (score : float64),
      userData w = Some u ->
      calculateScore (questions (ui w)) (userAnswers (ui w)) = Normal score ->
      exists d,
        attempts (handleSubmitTest now w) = attempts w ++ [d]
        /\ a_status d = completed
        /\ a_completedAt d = Some now
        /\ a_score d = Some score
        /\ a_timeSpent d = Math_round (minutesSpent (ui w))
        /\ a_answers d = userAnswers (ui w))
  /\ (forall (now : Z) (ev : Event) (w w' : World),
         step now ev w = Some w' -> attempts w `prefix_of` attempts w').
Proof.
  split.
  - intros now w u score Hu Hscore.
    exists (completedDoc now u (testId w) (ui w) score).
    split; [now apply handleSubmitTest_adds | repeat split].
  - exact step_prefix.
Qed.

Lemma submission_adds_a_record_witness :
  exists d,
    attempts (handleSubmitTest 0 Sample.ready) = attempts Sample.ready ++ [d]
    /\ a_status d = completed
    /\ a_completedAt d = Some 0
    /\ a_score d = Some (of_Z 0)
    /\ a_timeSpent d = Math_round (minutesSpent (ui Sample.ready))
    /\ a_answers d = userAnswers (ui Sample.ready).
Proof.
  apply (proj1 submission_adds_a_record 0 Sample.ready Sample.student (of_Z 0));
    vm_compute; reflexivity.
Defined.

(** ** Blocking a second session *)

Lemma unmounted_stuck (now : Z) (ev : Event) (w : World) :
  mounted w = false -> step now ev w = None.
Proof. intros Hm. unfold step. now rewrite Hm. Qed.

(** Loading never writes. *)
Lemma mount_reads_only (engine : list Question -> SortRun Question) (rnd : nat -> Z)
      (s : Firestore) (user : option UserData) (tid : string) :
  db (mount engine rnd s user tid) = s.
Proof.
  unfold mount, fetchTestData. repeat case_match; reflexivity.
Qed.

(** A completed attempt of the user on the test stops the loading: the
    page is left before the start screen, nothing is written and nothing
    can happen afterwards. *)
Lemma mount_blocked (engine : list Question -> SortRun Question) (rnd : nat -> Z)
      (s : Firestore) (u : UserData) (tid : string) (t : TestData) :
  tid <> ""%string ->
  tests s !! tid = Some t ->
  (0 < completedCount (uid u) tid s)%nat ->
  let w := mount engine rnd s (Some u) tid in
  mounted w = false
  /\ view (ui w) = VNotAvailable
  /\ toasts w = ["Test Already Completed"%string]
  /\ db w = s
  /\ (forall now ev, step now ev w = None).
Proof.
  intros Hne Ht Hc w.
  assert (mounted w = false /\ view (ui w) = VNotAvailable
          /\ toasts w = ["Test Already Completed"%string]) as (Hm & Hv & Ht').
  { subst w. unfold mount, fetchTestData. simpl.
    apply String.eqb_neq in Hne. rewrite Hne, Ht. simpl.
    unfold completedCount in Hc.
    destruct (0 <? Z.of_nat (length (completedAttempts (uid u) tid s))) eqn:Hlt.
    - repeat split.
    - apply Z.ltb_ge in Hlt. lia. }
  repeat split; try assumption.
  - apply mount_reads_only.
  - intros now ev. now apply unmounted_stuck.
Qed.

(** ** Submitting at the end of the countdown *)

(** Once a submission has set [testSubmitted] with the clock at zero, the
    countdown effect runs again and submits again. *)
Lemma effect_resubmits (now : Z) (w : World) (u : UserData) (score : float64) (k : nat) :
  mounted w = true ->
  logWritesInFlight w = S k ->
  testSubmitted (ui w) = false ->
  testStarted (ui w) = true ->
  timeRemaining (ui w) = 0 ->
  userData w = Some u ->
  calculateScore (questions (ui w)) (userAnswers (ui w)) = Normal score ->
  exists w' d,
    step now LogWritten w = Some w'
    /\ testSubmitted (ui w') = true
    /\ attempts w' = attempts w ++ [d]
    /\ a_status d = completed.
Proof.
  intros Hm Hl Hsub Hst Htr Hu Hscore.
  unfold step, handle. rewrite Hm, Hl. simpl.
  unfold rerender, deps. simpl. rewrite Hsub, Hst, Htr. simpl.
  unfold timerEffect. simpl. rewrite Hst, Htr. simpl.
  eexists. exists (completedDoc now u (testId w)
                     (setTestSubmitted true (ui w)) score).
  split; [reflexivity|]. split.
  - now rewrite (proj1 (handleSubmitTest_ui now _)).
  - split; [|reflexivity].
    rewrite (handleSubmitTest_adds now _ u score); [reflexivity| exact Hu | exact Hscore].
Qed.

(** C1. The student starts the one-minute sample test and lets the clock
    run out.  At zero the countdown effect submits: one completed attempt
    is written.  When that submission sets the submitted flag, the effect
    runs again and submits again: a second completed attempt is written,
    without any click. *)
Theorem countdown_expiry_submits_twice :
  (fun w => (timeRemaining (ui w), testSubmitted (ui w), map a_status (attempts w)))
    <$> run Sample.untilExpiry Sample.ready
  = Some (0, false, [in_progress; completed])
  /\ (fun w => (timeRemaining (ui w), testSubmitted (ui w), map a_status (attempts w)))
       <$> run (Sample.untilExpiry ++ Sample.acknowledged) Sample.ready
     = Some (0, true, [in_progress; completed; completed]).
Proof. split; vm_compute; reflexivity. Qed.

(** C3. After the run of the sample test to the end of its countdown, the
    student has two completed attempts on the same test; only then is a
    new session refused. *)
Theorem second_completion_written :
  completedCount (uid Sample.student) "test" Sample.store = 0%nat
  /\ (fun w => (completedCount (uid Sample.student) "test" (db w),
                mounted (mount insertion_engine (fun _ => 0) (db w)
                               (Some Sample.student) "test")))
       <$> run (Sample.untilExpiry ++ Sample.acknowledged) Sample.ready
     = Some (2%nat, false).
Proof. split; vm_compute; reflexivity. Qed.

(** ** The order of the questions *)

Lemma pow2_not_divisible_by_3 (k : nat) : ~ (3 | 2 ^ Z.of_nat k).
Proof.
  induction k as [|k IH].
  - simpl. intros [q Hq]. lia.
  - rewrite Nat2Z.inj_succ, Z.pow_succ_r by lia. intros [q Hq].
    apply IH. exists (2 * q - 2 ^ Z.of_nat k). lia.
Qed.

Lemma three_divides_fact (n : nat) : (3 <= n)%nat -> (3 | Z.of_nat (fact n)).
Proof.
  induction 1 as [|n Hle IH].
  - exists 2. reflexivity.
  - change (fact (S n)) with (S n * fact n)%nat.
    rewrite Nat2Z.inj_mul. now apply Z.divide_mul_r.
Qed.

Lemma sign_prob_weight (c : comparison) :
  (sign_prob c == inject_Z (sign_weight c) / inject_Z (2 ^ 53))%Q.
Proof. destruct c; unfold Qeq; vm_compute; reflexivity. Qed.

Lemma pow2_nonzero (k : nat) : ~ (inject_Z (2 ^ Z.of_nat k) == 0)%Q.
Proof.
  unfold Qeq. simpl.
  pose proof (Z.pow_pos_nonneg 2 (Z.of_nat k)). lia.
Qed.

(** Every outcome of a run has a probability of the form a / 2^k. *)
Lemma prob_dyadic {A} (t : SortRun A) (ev : list A -> bool) :
  exists (k : nat) (a : Z),
    (prob t ev == inject_Z a / inject_Z (2 ^ Z.of_nat k))%Q.
Proof.
  induction t as [out | f IH].
  - exists 0%nat. simpl. destruct (ev out); [exists 1 | exists 0]; reflexivity.
  - destruct (IH Lt) as (k1 & a1 & H1).
    destruct (IH Eq) as (k2 & a2 & H2).
    destruct (IH Gt) as (k3 & a3 & H3).
    exists (53 + k1 + k2 + k3)%nat.
    exists (sign_weight Lt * a1 * 2 ^ Z.of_nat k2 * 2 ^ Z.of_nat k3
            + sign_weight Eq * a2 * 2 ^ Z.of_nat k1 * 2 ^ Z.of_nat k3
            + sign_weight Gt * a3 * 2 ^ Z.of_nat k1 * 2 ^ Z.of_nat k2).
    change (prob (Cmp f) ev)
      with (sign_prob Lt * prob (f Lt) ev + sign_prob Eq * prob (f Eq) ev
            + sign_prob Gt * prob (f Gt) ev)%Q.
    rewrite H1, H2, H3, !sign_prob_weight.
    replace (2 ^ Z.of_nat (53 + k1 + k2 + k3))
      with (2 ^ Z.of_nat 53 * 2 ^ Z.of_nat k1 * 2 ^ Z.of_nat k2 * 2 ^ Z.of_nat k3)
      by (rewrite !Nat2Z.inj_add, !Z.pow_add_r by lia; reflexivity).
    change (2 ^ 53) with (2 ^ Z.of_nat 53).
    rewrite !inject_Z_plus, !inject_Z_mult.
    pose proof (pow2_nonzero 53) as N0. pose proof (pow2_nonzero k1) as N1.
    pose proof (pow2_nonzero k2) as N2. pose proof (pow2_nonzero k3) as N3.
    revert N0 N1 N2 N3.
    generalize (inject_Z (2 ^ Z.of_nat 53)) (inject_Z (2 ^ Z.of_nat k1))
               (inject_Z (2 ^ Z.of_nat k2)) (inject_Z (2 ^ Z.of_nat k3))
               (inject_Z (sign_weight Lt)) (inject_Z (sign_weight Eq))
               (inject_Z (sign_weight Gt)).
    intros x0 x1 x2 x3 c1 c2 c3 N0 N1 N2 N3. field. repeat split; assumption.
Qed.

(** No comparison sort with the comparator [() => Math.random() - 0.5]
    orders three or more questions uniformly. *)
Lemma random_comparator_not_uniform (t : SortRun Question) (l : list Question) :
  (3 <= length l)%nat -> ~ uniform t l.
Proof.
  intros Hlen Hu. specialize (Hu l (reflexivity l)).
  destruct (prob_dyadic t (sameOrder l)) as (k & a & Hd).
  rewrite Hd in Hu. clear Hd.
  pose proof (three_divides_fact _ Hlen) as H3.
  pose proof (fact_neq_0 (length l)) as Hf.
  apply (pow2_not_divisible_by_3 k).
  unfold Qeq, Qdiv, Qmult, Qinv, inject_Z in Hu. simpl in Hu.
  pose proof (Z.pow_pos_nonneg 2 (Z.of_nat k) ltac:(lia) ltac:(lia)) as Hp.
  destruct (2 ^ Z.of_nat k) as [|p|p] eqn:Hpow; try lia.
  simpl in Hu.
  replace (Z.pos (Pos.of_nat (fact (length l)))) with (Z.of_nat (fact (length l))) in Hu
    by (destruct (fact (length l)); [congruence | now rewrite <- Pos.of_nat_succ, Zpos_P_of_succ_nat, Nat2Z.inj_succ]).
  destruct H3 as [q Hq]. exists (a * q). lia.
Qed.

(** Insertion sort keeps three questions in their order with probability
    1/4, not 1/6. *)
Lemma insertion_keeps_order_quarter :
  let l := firstn 3 Sample.five in
  (prob (insertion_engine l) (sameOrder l) == 1 # 4)%Q.
Proof. unfold Qeq. vm_compute. reflexivity. Qed.

(** C8, as the claim states it, fails: whatever sort the engine runs under
    the random comparator, the five sample questions are not ordered
    uniformly. *)
Lemma shuffle_not_uniform :
  ~ (exists engine : list Question -> SortRun Question,
        uniform (engine Sample.five) Sample.five).
Proof.
  intros [engine Hu]. revert Hu.
  apply random_comparator_not_uniform. simpl. lia.
Qed.

(** C8, amended. With [shuffleQuestions] set, the questions are ordered by
    the engine's sort run under the comparator [() => Math.random() - 0.5];
    otherwise their order is kept.  Whatever the algorithm of the engine,
    the order of three or more questions is not uniformly distributed. *)
Theorem shuffle_is_comparator_sort :
  forall (engine : list Question -> SortRun Question) (rnd : nat -> Z)
         (t : Test) (qs : list Question),
    (t_shuffleQuestions t = Some true ->
     shuffleIfEnabled engine rnd t qs = exec (engine qs) rnd 0)
    /\ (t_shuffleQuestions t <> Some true ->
        shuffleIfEnabled engine rnd t qs = qs)
    /\ ((3 <= length qs)%nat -> ~ uniform (engine qs) qs).
Proof.
  intros engine rnd t qs. unfold shuffleIfEnabled. repeat split.
  - now intros ->.
  - intros Hne. destruct (t_shuffleQuestions t) as [[|]|]; congruence.
  - apply random_comparator_not_uniform.
Qed.

Lemma shuffle_is_comparator_sort_witness :
  ~ uniform (insertion_engine Sample.five) Sample.five.
Proof.
  apply (proj2 (proj2 (shuffle_is_comparator_sort
                         insertion_engine (fun _ => 0) (Sample.aptitude None)
                         Sample.five))).
  simpl. lia.
Defined.

(** * Further properties of the component *)

(** ** The answer store under updates *)

(** A map that keeps the question identifiers commutes with the lookup. *)
Lemma findAnswer_map (f : UserAnswer -> UserAnswer) (uas : list UserAnswer)
      (qid : string) :
  (forall ua, questionId (f ua) = questionId ua) ->
  findAnswer (map f uas) qid = f <$> findAnswer uas qid.
Proof.
  intros Hid. unfold findAnswer.
  induction uas as [|ua uas IH]; simpl; [reflexivity|].
  rewrite Hid. destruct (String.eqb (questionId ua) qid); [reflexivity | exact IH].
Qed.

Lemma findAnswer_toggleFlag (qid x : string) (uas : list UserAnswer) :
  answer <$> findAnswer (toggleFlag qid uas) x = answer <$> findAnswer uas x.
Proof.
  unfold toggleFlag. rewrite findAnswer_map.
  - destruct (findAnswer uas x) as [ua|]; simpl; [|reflexivity].
    now destruct (String.eqb (questionId ua) qid).
  - intros ua. now destruct (String.eqb (questionId ua) qid).
Qed.

Lemma gradeQuestion_answer_only (uas uas' : list UserAnswer) (q : Question) :
  answer <$> findAnswer uas' (q_id q) = answer <$> findAnswer uas (q_id q) ->
  gradeQuestion uas' q = gradeQuestion uas q.
Proof.
  unfold gradeQuestion. intros H.
  destruct (findAnswer uas' (q_id q)) as [a'|], (findAnswer uas (q_id q)) as [a|];
    simpl in H; try discriminate; [|reflexivity].
  injection H as ->. reflexivity.
Qed.

Lemma countCorrect_ext (uas uas' : list UserAnswer) (qs : list Question) :
  (forall q, q ∈ qs -> gradeQuestion uas' q = gradeQuestion uas q) ->
  forall c, countCorrect uas' qs c = countCorrect uas qs c.
Proof.
  induction qs as [|q qs IH]; intros Hext c; simpl; [reflexivity|].
  rewrite (Hext q) by apply list_elem_of_here.
  destruct (gradeQuestion uas q); simpl; [|reflexivity].
  apply IH. intros q' Hq'. apply Hext. now apply list_elem_of_further.
Qed.

(** Flagging a question, or removing its flag, never changes the score. *)
Theorem toggleFlag_keeps_score (qid : string) (qs : list Question)
        (uas : list UserAnswer) :
  calculateScore qs (toggleFlag qid uas) = calculateScore qs uas
  /\ answeredCount (toggleFlag qid uas) = answeredCount uas.
Proof.
  split.
  - unfold calculateScore. f_equal. apply countCorrect_ext.
    intros q _. apply gradeQuestion_answer_only, findAnswer_toggleFlag.
  - unfold answeredCount, toggleFlag. f_equal.
    induction uas as [|ua uas IH]; simpl; [reflexivity|].
    assert (answer (if String.eqb (questionId ua) qid
                    then {| questionId := questionId ua; answer := answer ua;
                            timeSpent := timeSpent ua;
                            flagged := negb (flagged ua) |}
                    else ua) = answer ua) as ->
        by now destruct (String.eqb (questionId ua) qid).
    destruct (negb (strictEq (answer ua) JNull)); simpl; now rewrite IH.
Qed.

(** Flagging twice restores the store. *)
Theorem toggleFlag_involutive (qid : string) (uas : list UserAnswer) :
  toggleFlag qid (toggleFlag qid uas) = uas.
Proof.
  unfold toggleFlag. rewrite map_map.
  rewrite <- (map_id uas) at 2. apply map_ext.
  intros [i a t f]. simpl.
  destruct (String.eqb i qid) eqn:Heq; simpl; rewrite ?Heq; [|reflexivity].
  now rewrite negb_involutive.
Qed.

(** Of two answers given to a question the last one stays; answers to
    different questions can be given in either order; an answer to a
    question that has no entry changes nothing. *)
Theorem updateAnswer_algebra (q1 q2 : string) (v1 v2 : JsValue)
        (uas : list UserAnswer) :
  updateAnswer q1 v2 (updateAnswer q1 v1 uas) = updateAnswer q1 v2 uas
  /\ (q1 <> q2 ->
      updateAnswer q1 v1 (updateAnswer q2 v2 uas)
      = updateAnswer q2 v2 (updateAnswer q1 v1 uas))
  /\ (q1 ∉ map questionId uas -> updateAnswer q1 v1 uas = uas).
Proof.
  unfold updateAnswer. repeat split.
  - rewrite map_map. apply map_ext. intros ua.
    destruct (String.eqb (questionId ua) q1) eqn:Heq; simpl; now rewrite Heq.
  - intros Hne. rewrite !map_map. apply map_ext. intros ua.
    destruct (String.eqb (questionId ua) q1) eqn:H1,
             (String.eqb (questionId ua) q2) eqn:H2; simpl; rewrite ?H1, ?H2;
      try reflexivity.
    apply String.eqb_eq in H1, H2. congruence.
  - intros Hnot. rewrite <- (map_id uas) at 2. apply map_ext_in.
    intros ua Hin. destruct (String.eqb (questionId ua) q1) eqn:Heq; [|reflexivity].
    apply String.eqb_eq in Heq. exfalso. apply Hnot. subst q1.
    apply list_elem_of_fmap. exists ua. split; [reflexivity|].
    now apply list_elem_of_In.
Qed.

Lemma updateAnswer_algebra_witness :
  updateAnswer "q1" (JNum (of_Z 1)) (updateAnswer "q4" (JBool true)
                                      (initialAnswers Sample.five))
  = updateAnswer "q4" (JBool true) (updateAnswer "q1" (JNum (of_Z 1))
                                      (initialAnswers Sample.five))
  /\ updateAnswer "q9" (JNum (of_Z 1)) (initialAnswers Sample.five)
     = initialAnswers Sample.five.
Proof.
  split.
  - apply (proj1 (proj2 (updateAnswer_algebra "q1" "q4" (JNum (of_Z 1)) (JBool true)
                                             (initialAnswers Sample.five)))).
    discriminate.
  - apply (proj2 (proj2 (updateAnswer_algebra "q9" "q4" (JNum (of_Z 1)) (JBool true)
                                             (initialAnswers Sample.five)))).
    apply (bool_decide_unpack _). vm_compute. exact I.
Defined.

(** Answering a question changes how that question is graded, to the
    grade of the new value, and leaves the grade of every other question. *)
Theorem updateAnswer_grades (qid : string) (v : JsValue) (uas : list UserAnswer)
        (q : Question) :
  (q_id q <> qid ->
   gradeQuestion (updateAnswer qid v uas) q = gradeQuestion uas q)
  /\ (q_id q = qid -> qid ∈ map questionId uas -> v <> JNull ->
      gradeQuestion (updateAnswer qid v uas) q = isCorrect q v)
  /\ (q_id q = qid -> qid ∈ map questionId uas ->
      gradeQuestion (updateAnswer qid JNull uas) q = Normal false).
Proof.
  assert (forall x, findAnswer (updateAnswer qid v uas) x
                    = (fun ua => if String.eqb (questionId ua) qid
                                 then withAnswer v ua else ua) <$> findAnswer uas x)
    as Hfind.
  { intros x. unfold updateAnswer. apply findAnswer_map.
    intros ua. now destruct (String.eqb (questionId ua) qid). }
  assert (forall x, x ∈ map questionId uas ->
                    exists ua, findAnswer uas x = Some ua /\ questionId ua = x)
    as Hsome.
  { intros x Hx. unfold findAnswer.
    apply list_elem_of_fmap in Hx as (ua0 & -> & Hin).
    destruct (List.find (fun ua => String.eqb (questionId ua) (questionId ua0)) uas)
      as [ua|] eqn:Hf.
    - exists ua. split; [reflexivity|].
      apply find_some in Hf as [_ Hf]. now apply String.eqb_eq in Hf.
    - apply list_elem_of_In in Hin.
      pose proof (find_none _ _ Hf ua0 Hin) as Hno. simpl in Hno.
      rewrite String.eqb_refl in Hno. discriminate. }
  repeat split.
  - intros Hne. apply gradeQuestion_answer_only. rewrite Hfind.
    destruct (findAnswer uas (q_id q)) as [ua|] eqn:Hf; [|reflexivity]. simpl.
    destruct (String.eqb (questionId ua) qid) eqn:Heq; [|reflexivity].
    apply String.eqb_eq in Heq.
    unfold findAnswer in Hf. apply find_some in Hf as [_ Hf].
    apply String.eqb_eq in Hf. congruence.
  - intros Hid Hin Hnn. subst qid.
    destruct (Hsome _ Hin) as (ua & Hf & Hua).
    unfold gradeQuestion. rewrite Hfind, Hf. simpl.
    rewrite Hua, String.eqb_refl. simpl. destruct v; congruence.
  - intros Hid Hin. subst qid.
    assert (forall x, findAnswer (updateAnswer (q_id q) JNull uas) x
                      = (fun ua => if String.eqb (questionId ua) (q_id q)
                                   then withAnswer JNull ua else ua)
                          <$> findAnswer uas x) as Hfind0.
    { intros x. unfold updateAnswer. apply findAnswer_map.
      intros ua. now destruct (String.eqb (questionId ua) (q_id q)). }
    destruct (Hsome _ Hin) as (ua & Hf & Hua).
    unfold gradeQuestion. rewrite Hfind0, Hf. simpl.
    now rewrite Hua, String.eqb_refl.
Qed.

Lemma updateAnswer_grades_witness :
  gradeQuestion (updateAnswer "q1" (JNum (of_Z 1)) (initialAnswers Sample.five))
                (Sample.question "q2" mcq_single (JNum (of_Z 3)))
  = gradeQuestion (initialAnswers Sample.five)
                  (Sample.question "q2" mcq_single (JNum (of_Z 3))).
Proof.
  apply (proj1 (updateAnswer_grades "q1" (JNum (of_Z 1)) (initialAnswers Sample.five)
                                    (Sample.question "q2" mcq_single (JNum (of_Z 3))))).
  discriminate.
Defined.

(** ** When scoring can throw *)

Lemma every_normal (l : list Z) (p : Z -> Completion bool) :
  (forall a, exists b, p a = Normal b) -> exists b, every l p = Normal b.
Proof.
  intros Hp. induction l as [|a l IH]; simpl; [eauto|].
  destruct (Hp a) as [[|] ->]; simpl; eauto.
Qed.

(** The multiple-choice comparison throws exactly when the correct answer
    is not an array and has the same [length] as the answer ([undefined]
    for numbers and booleans), or when one of the two is null. *)
Lemma multipleCorrect_throws (cor ans : JsValue) :
  (exists e, multipleCorrect cor ans = Throw e)
  <-> cor = JNull \/ ans = JNull
      \/ ((forall l, cor <> JArr l) /\ length_of cor = length_of ans).
Proof.
  unfold multipleCorrect. split.
  - intros [e He].
    destruct cor as [|x|s|b|l]; [now left| | | |];
      (destruct ans as [|x'|s'|b'|l']; [right; now left| | | |]);
      simpl in He; try case_bool_decide; try discriminate;
      try (right; right; split; [intros ?; discriminate | simpl; congruence]).
    + exfalso.
      destruct (every_normal l (includes (JStr s'))) as [b Hb];
        [intros a; simpl; eauto | congruence].
    + exfalso. rewrite every_includes_array in He. discriminate.
  - intros [-> | [-> | [Hna Hlen]]].
    + exists TypeError. reflexivity.
    + exists TypeError. destruct cor; reflexivity.
    + exists TypeError.
      destruct cor as [|x|s|b|l]; try reflexivity; try (now destruct (Hna l));
        (destruct ans as [|x'|s'|b'|l']; simpl in *; try discriminate;
         try reflexivity; rewrite bool_decide_eq_true_2 by congruence;
         reflexivity).
Qed.

Lemma multipleCorrect_array_normal (l : list Z) (ans : JsValue) :
  ans <> JNull -> exists b, multipleCorrect (JArr l) ans = Normal b.
Proof.
  intros Hans. unfold multipleCorrect.
  destruct ans as [|x'|s'|b'|l']; [congruence| | | |];
    simpl; try case_bool_decide; eauto.
  - apply every_normal. intros a; simpl; eauto.
  - rewrite every_includes_array. eauto.
Qed.

Lemma gradeQuestion_normal (uas : list UserAnswer) (q : Question) :
  (q_type q = mcq_multiple -> exists l, q_correctAnswer q = JArr l) ->
  exists b, gradeQuestion uas q = Normal b.
Proof.
  intros Harr. unfold gradeQuestion.
  destruct (findAnswer uas (q_id q)) as [ua|]; [|eauto].
  destruct (answer ua) as [|x|s|b|l] eqn:Ha; [eauto| | | |];
    unfold isCorrect; destruct (q_type q) eqn:Hty; eauto;
    destruct (Harr eq_refl) as [cor ->];
    apply multipleCorrect_array_normal; discriminate.
Qed.

(** When the correct answer of every multiple-choice question is an array,
    the score is computed without error, whatever the answers are; single
    choice, true/false and numeric questions never throw. *)
Theorem calculateScore_total (qs : list Question) (uas : list UserAnswer) :
  (forall q, q ∈ qs -> q_type q = mcq_multiple ->
             exists l, q_correctAnswer q = JArr l) ->
  noThrow uas qs
  /\ calculateScore qs uas
     = Normal (percentage (correctCount uas qs) (Z.of_nat (length qs))).
Proof.
  intros Harr.
  assert (noThrow uas qs) as Hok.
  { apply Forall_forall. intros q Hq. apply gradeQuestion_normal.
    now apply Harr. }
  split; [assumption | now apply calculateScore_counts].
Qed.

Lemma calculateScore_total_witness :
  calculateScore Sample.five Sample.five_answers
  = Normal (percentage (correctCount Sample.five_answers Sample.five) 5).
Proof.
  apply (proj2 (calculateScore_total Sample.five Sample.five_answers
    ltac:(apply (proj1 (Forall_forall
                          (fun q => q_type q = mcq_multiple ->
                                    exists l, q_correctAnswer q = JArr l)
                          Sample.five)); unfold Sample.five;
          repeat constructor; simpl; intros Hty;
          first [discriminate Hty | eauto]))).
Defined.

Lemma countCorrect_throws (uas : list UserAnswer) (qs : list Question)
      (q : Question) (e : JsError) :
  q ∈ qs -> gradeQuestion uas q = Throw e ->
  forall c, exists e', countCorrect uas qs c = Throw e'.
Proof.
  induction qs as [|q0 qs IH]; intros Hin Hthrow c.
  - now apply not_elem_of_nil in Hin.
  - simpl. apply elem_of_cons in Hin as [-> | Hin].
    + rewrite Hthrow. simpl. eauto.
    + destruct (gradeQuestion uas q0); simpl; eauto.
Qed.

(** A multiple-choice question whose correct answer was stored as text:
    once the student has ticked as many options as the text has
    characters, every submission fails with an error toast and writes
    nothing. *)
Theorem text_key_blocks_submission (now : Z) (w : World) (q : Question)
        (key : string) (ua : UserAnswer) (ticked : list Z) :
  q ∈ questions (ui w) ->
  q_type q = mcq_multiple ->
  q_correctAnswer q = JStr key ->
  findAnswer (userAnswers (ui w)) (q_id q) = Some ua ->
  answer ua = JArr ticked ->
  length ticked = String.length key ->
  handleSubmitTest now w = toast "Error" w
  /\ attempts (handleSubmitTest now w) = attempts w.
Proof.
  intros Hin Hty Hkey Hfound Hans Hlen.
  assert (gradeQuestion (userAnswers (ui w)) q = Throw TypeError) as Hthrow.
  { rewrite (gradeQuestion_answered _ _ _ Hfound) by (rewrite Hans; discriminate).
    unfold isCorrect. rewrite Hty, Hkey, Hans. unfold multipleCorrect. simpl.
    rewrite bool_decide_eq_true_2 by (now rewrite Hlen). reflexivity. }
  assert (handleSubmitTest now w = toast "Error" w) as Heq.
  { unfold handleSubmitTest, calculateScore.
    destruct (countCorrect_throws _ _ _ _ Hin Hthrow 0) as [e' ->]. reflexivity. }
  split; [exact Heq | now rewrite Heq].
Qed.

Lemma text_key_blocks_submission_witness :
  let q := Sample.question "q3" mcq_multiple (JStr "0,2") in
  let w := with_ui (setUserAnswers (fun _ => [Sample.answered "q3" (JArr [0; 1; 2])]))
                   (with_ui (setQuestions [q]) Sample.ready) in
  handleSubmitTest 0 w = toast "Error" w
  /\ attempts (handleSubmitTest 0 w) = attempts w.
Proof.
  intros q w.
  apply (text_key_blocks_submission 0 w q "0,2"
           (Sample.answered "q3" (JArr [0; 1; 2])) [0; 1; 2]);
    try reflexivity.
  apply list_elem_of_here.
Defined.

(** ** Invariants of a session *)

Lemma updateAnswer_ids (qid : string) (v : JsValue) (uas : list UserAnswer) :
  map questionId (updateAnswer qid v uas) = map questionId uas.
Proof.
  unfold updateAnswer. rewrite map_map. apply map_ext.
  intros ua. now destruct (String.eqb (questionId ua) qid).
Qed.

Lemma toggleFlag_ids (qid : string) (uas : list UserAnswer) :
  map questionId (toggleFlag qid uas) = map questionId uas.
Proof.
  unfold toggleFlag. rewrite map_map. apply map_ext.
  intros ua. now destruct (String.eqb (questionId ua) qid).
Qed.

Lemma handleSubmitTest_frame (now : Z) (w : World) :
  ui (handleSubmitTest now w) = ui w
  /\ mounted (handleSubmitTest now w) = mounted w
  /\ timer (handleSubmitTest now w) = timer w
  /\ userData (handleSubmitTest now w) = userData w
  /\ testId (handleSubmitTest now w) = testId w.
Proof.
  unfold handleSubmitTest.
  destruct (calculateScore _ _); [destruct (userData w) eqn:Hu|];
    conjuncts; simpl; congruence.
Qed.

Lemma rerender_frame (now : Z) (before : Component) (w : World) :
  ui (rerender now before w) = ui w
  /\ mounted (rerender now before w) = mounted w
  /\ userData (rerender now before w) = userData w
  /\ testId (rerender now before w) = testId w.
Proof.
  unfold rerender, timerEffect.
  repeat case_match; conjuncts; try reflexivity;
    apply (handleSubmitTest_frame now (setTimer None w)).
Qed.

(** What a handler does to the state the invariants speak of. *)
Lemma handle_frame (now : Z) (ev : Event) (w w1 : World) :
  handle now ev w = Some w1 ->
  test (ui w1) = test (ui w)
  /\ questions (ui w1) = questions (ui w)
  /\ map questionId (userAnswers (ui w1)) = map questionId (userAnswers (ui w))
  /\ mounted w1 = mounted w
  /\ userData w1 = userData w
  /\ testId w1 = testId w
  /\ (testStarted (ui w) = true -> testStarted (ui w1) = true)
  /\ (testSubmitted (ui w) = true -> testSubmitted (ui w1) = true)
  /\ ((currentQuestion (ui w) <= length (questions (ui w)) - 1)%nat ->
      (currentQuestion (ui w1) <= length (questions (ui w)) - 1)%nat)
  /\ ((timeRemaining (ui w1) = timeRemaining (ui w) /\ timer w1 = timer w)
      \/ (exists t, timer w = Some t /\ timeRemaining (ui w1) = t - 1
                    /\ timer w1 = None
                    /\ testStarted (ui w1) = testStarted (ui w)
                    /\ testSubmitted (ui w1) = testSubmitted (ui w))).
Proof.
  unfold handle, runningClick, startTest, startTest_resume,
    handleSubmitTest_resume, handleSubmitTest_log.
  intros H; repeat (case_match; simplify_eq); simpl;
    rewrite ?updateAnswer_ids, ?toggleFlag_ids;
    try (destruct (handleSubmitTest_frame now w) as (-> & -> & -> & -> & ->));
    repeat match goal with
           | Hb : bool_decide _ = true |- _ => apply bool_decide_eq_true_1 in Hb
           end;
    conjuncts; auto; try lia; try (left; now split);
    try (right; eexists; conjuncts; reflexivity).
Qed.

Lemma rerender_timer (now : Z) (before : Component) (w : World) :
  timer (rerender now before w)
  = if bool_decide (deps before = deps (ui w)) then timer w
    else if (0 <? timeRemaining (ui w)) && negb (testSubmitted (ui w))
            && testStarted (ui w)
         then Some (timeRemaining (ui w)) else None.
Proof.
  unfold rerender, timerEffect. simpl.
  repeat case_match; try reflexivity;
    apply (handleSubmitTest_frame now (setTimer None w)).
Qed.

Lemma step_clockInvariant (now : Z) (ev : Event) (w w' : World) :
  step now ev w = Some w' -> clockInvariant w -> clockInvariant w'.
Proof.
  unfold step. destruct (mounted w); [|discriminate].
  destruct (handle now ev w) as [w1|] eqn:Hh; [|discriminate].
  simpl. intros [= <-] (Hlo & Hhi & Htimer).
  destruct (handle_frame _ _ _ _ Hh)
    as (Htest & _ & _ & _ & _ & _ & Hst & Hsub & _ & Hclock).
  unfold clockInvariant.
  rewrite (proj1 (rerender_frame now (ui w) w1)), rerender_timer, Htest.
  unfold deps.
  destruct Hclock as [[Htr Htm] | (t & Ht & Htr & Htm & Hst' & Hsub')].
  - rewrite Htr, Htm. conjuncts; try assumption.
    intros t. case_bool_decide as Hdeps.
    + intros Ht. injection Hdeps as Hs1 Hs2.
      destruct (Htimer t Ht) as (-> & Hpos & Hs & Hb).
      rewrite <- Hs1, <- Hs2. now conjuncts.
    + destruct ((0 <? _) && negb _ && _) eqn:Hc; [|intros; discriminate]. intros [= <-].
      apply andb_true_iff in Hc as [Hc Hs].
      apply andb_true_iff in Hc as [Hc Hb].
      apply Z.ltb_lt in Hc. apply negb_true_iff in Hb.
      now conjuncts.
  - destruct (Htimer t Ht) as (-> & Hpos & Hs & Hb).
    rewrite Htr, Htm. conjuncts; try lia.
    + destruct (test (ui w)); lia.
    + intros t. case_bool_decide as Hdeps; [intros; discriminate|].
      destruct ((0 <? _) && negb _ && _) eqn:Hc; [|intros; discriminate]. intros [= <-].
      apply andb_true_iff in Hc as [Hc Hs'].
      apply andb_true_iff in Hc as [Hc Hb'].
      apply Z.ltb_lt in Hc. apply negb_true_iff in Hb'.
      now conjuncts.
Qed.

Lemma step_storeInvariant (now : Z) (ev : Event) (w w' : World) :
  step now ev w = Some w' -> storeInvariant w -> storeInvariant w'.
Proof.
  unfold step. destruct (mounted w); [|discriminate].
  destruct (handle now ev w) as [w1|] eqn:Hh; [|discriminate].
  simpl. intros [= <-] (Hids & Hcur).
  destruct (handle_frame _ _ _ _ Hh)
    as (_ & Hqs & Hua & _ & _ & _ & _ & _ & Hnav & _).
  unfold storeInvariant.
  rewrite (proj1 (rerender_frame now (ui w) w1)), Hqs, Hua.
  split; [assumption | now apply Hnav].
Qed.

Lemma run_invariant (P : World -> Prop) :
  (forall now ev w w', step now ev w = Some w' -> P w -> P w') ->
  forall evs w w', run evs w = Some w' -> P w -> P w'.
Proof.
  intros Hstep evs. induction evs as [|[now ev] evs IH]; simpl; intros w w'.
  - now intros [= ->].
  - destruct (step now ev w) as [w1|] eqn:Hs; [|discriminate].
    intros Hr Hw. apply (IH w1 w' Hr). now apply (Hstep now ev w).
Qed.

Lemma initialAnswers_ids (qs : list Question) :
  map questionId (initialAnswers qs) = map q_id qs.
Proof. unfold initialAnswers. rewrite map_map. reflexivity. Qed.

Lemma mount_invariants (engine : list Question -> SortRun Question) (rnd : nat -> Z)
      (s : Firestore) (user : option UserData) (tid : string) :
  (forall t : TestData, tests s !! tid = Some t -> 0 <= t_duration t) ->
  clockInvariant (mount engine rnd s user tid)
  /\ storeInvariant (mount engine rnd s user tid).
Proof.
  intros Hdur. unfold mount, fetchTestData, clockInvariant, storeInvariant.
  cbn [db ui with_ui setLoading testId].
  destruct (tests s !! tid) as [t|] eqn:Ht;
    [specialize (Hdur t eq_refl)|];
    repeat case_match; simpl in *; simplify_eq; simpl;
    rewrite ?initialAnswers_ids;
    conjuncts; first [reflexivity | lia | intros; discriminate].
Qed.

Lemma mount_invariants_store (engine : list Question -> SortRun Question)
      (rnd : nat -> Z) (s : Firestore) (user : option UserData) (tid : string) :
  storeInvariant (mount engine rnd s user tid).
Proof.
  unfold mount, fetchTestData, storeInvariant.
  cbn [db ui with_ui setLoading testId].
  repeat case_match; simpl; rewrite ?initialAnswers_ids;
    split; first [reflexivity | lia].
Qed.

Lemma session_clock_inv (engine : list Question -> SortRun Question)
      (rnd : nat -> Z) (s : Firestore) (user : option UserData) (tid : string)
      (evs : list (Z * Event)) (w : World) :
  (forall t : TestData, tests s !! tid = Some t -> 0 <= t_duration t) ->
  run evs (mount engine rnd s user tid) = Some w ->
  clockInvariant w.
Proof.
  intros Hdur Hrun.
  apply (run_invariant clockInvariant step_clockInvariant _ _ _ Hrun).
  now apply mount_invariants.
Qed.

(** The clock of every session: from the loading of a test whose duration
    is not negative, whatever happens, the remaining time stays between 0
    and the duration, and a tick is pending only while the test is started
    and not submitted, for the remaining time shown. *)
Theorem session_clock (engine : list Question -> SortRun Question) (rnd : nat -> Z)
        (s : Firestore) (user : option UserData) (tid : string)
        (evs : list (Z * Event)) (w : World) :
  (forall t : TestData, tests s !! tid = Some t -> 0 <= t_duration t) ->
  run evs (mount engine rnd s user tid) = Some w ->
  clockInvariant w.
Proof. apply session_clock_inv. Qed.

Lemma session_clock_witness : clockInvariant (startTest 0 Sample.ready).
Proof.
  apply (session_clock insertion_engine (fun _ => 0) Sample.store
                       (Some Sample.student) "test" [(0, StartClick)]).
  - intros t Ht. vm_compute in Ht. injection Ht as <-. simpl. lia.
  - vm_compute. reflexivity.
Defined.

(** The answer store of every session: whatever happens after the loading,
    the test and its questions never change, the store keeps exactly one
    entry per question in the order of the questions, and the question
    shown stays within the list. *)
Theorem session_store (engine : list Question -> SortRun Question) (rnd : nat -> Z)
        (s : Firestore) (user : option UserData) (tid : string)
        (evs : list (Z * Event)) (w : World) :
  run evs (mount engine rnd s user tid) = Some w ->
  storeInvariant w
  /\ questions (ui w) = questions (ui (mount engine rnd s user tid))
  /\ test (ui w) = test (ui (mount engine rnd s user tid)).
Proof.
  intros Hrun. split.
  - apply (run_invariant storeInvariant step_storeInvariant _ _ _ Hrun).
    apply (mount_invariants_store engine rnd s user tid).
  - set (w0 := mount engine rnd s user tid) in *.
    apply (run_invariant
             (fun w => questions (ui w) = questions (ui w0)
                       /\ test (ui w) = test (ui w0))
             ltac:(intros now ev w1 w2 Hs [Hq Ht];
                   unfold step in Hs; destruct (mounted w1); [|discriminate];
                   destruct (handle now ev w1) as [w3|] eqn:Hh; [|discriminate];
                   simpl in Hs; injection Hs as <-;
                   destruct (handle_frame _ _ _ _ Hh) as (Ht' & Hq' & _);
                   rewrite (proj1 (rerender_frame now (ui w1) w3));
                   split; congruence)
             _ _ _ Hrun).
    now split.
Qed.

Lemma session_store_witness :
  storeInvariant (startTest 0 Sample.ready)
  /\ questions (ui (startTest 0 Sample.ready)) = questions (ui Sample.ready)
  /\ test (ui (startTest 0 Sample.ready)) = test (ui Sample.ready).
Proof.
  apply (session_store insertion_engine (fun _ => 0) Sample.store
                       (Some Sample.student) "test" [(0, StartClick)]).
  vm_compute. reflexivity.
Defined.

(** ** After the submission *)

Lemma rerender_same (now : Z) (before : Component) (w : World) :
  deps before = deps (ui w) -> rerender now before w = w.
Proof.
  intros Heq. unfold rerender. now rewrite bool_decide_eq_true_2.
Qed.

Lemma view_running_started (c : Component) :
  view c = VRunning -> testStarted c = true /\ testSubmitted c = false.
Proof.
  unfold view. repeat case_match; try discriminate.
  intros _. split; [now apply negb_false_iff | reflexivity].
Qed.

Lemma view_finished (c : Component) :
  testStarted c = true -> testSubmitted c = true ->
  view c <> VIntro /\ view c <> VRunning.
Proof.
  intros Hs Hb. unfold view. rewrite Hs, Hb. simpl.
  repeat case_match; split; discriminate.
Qed.

Lemma step_finished (now : Z) (ev : Event) (w w' : World) :
  step now ev w = Some w' -> finished w ->
  finished w'
  /\ attempts w' = attempts w
  /\ ui w' = ui w.
Proof.
  intros Hstep (Hs & Hb & Ht). unfold step in Hstep.
  destruct (mounted w); [|discriminate].
  destruct (handle now ev w) as [w1|] eqn:Hh; [|discriminate].
  simpl in Hstep. injection Hstep as <-.
  destruct (view_finished (ui w) Hs Hb) as [Hni Hnr].
  assert (ui w1 = ui w /\ attempts w1 = attempts w /\ timer w1 = None)
    as (Hui & Hat & Htm).
  { unfold handle, startTest_resume, handleSubmitTest_resume,
      handleSubmitTest_log in Hh.
    destruct (ui w) as [t qs cq tr uas sw sub ld st] eqn:Hc. simpl in Hs, Hb.
    subst st sub.
    repeat (case_match; simplify_eq); simpl; rewrite ?Hc; try congruence;
      now conjuncts. }
  rewrite rerender_same by now rewrite Hui.
  unfold finished. rewrite Hui. now conjuncts.
Qed.

Lemma step_startedInvariant (now : Z) (ev : Event) (w w' : World) :
  step now ev w = Some w' -> startedInvariant w -> startedInvariant w'.
Proof.
  unfold step. destruct (mounted w); [|discriminate].
  destruct (handle now ev w) as [w1|] eqn:Hh; [|discriminate].
  simpl. intros [= <-] Hinv.
  assert (startedInvariant w1) as Hinv1.
  { unfold startedInvariant in *.
    unfold handle, runningClick, startTest, startTest_resume,
      handleSubmitTest_resume, handleSubmitTest_log, handleSubmitTest in Hh.
    repeat (case_match; simplify_eq); simpl in *; try reflexivity;
      try (intros; apply Hinv; intuition congruence);
      try (intros _; now apply view_running_started);
      try (intros [?|[?|?]]; first [discriminate | now apply Hinv; auto
                                    | apply Hinv; right; right; congruence
                                    | apply Hinv; right; left; congruence]). }
  unfold startedInvariant in *. unfold rerender, timerEffect, handleSubmitTest.
  repeat case_match; simpl; try assumption;
    try (intros _; repeat match goal with
                          | Hc : _ && _ = true |- _ =>
                              apply andb_true_iff in Hc as [? ?]
                          end; assumption).
Qed.

Lemma run_finished (evs : list (Z * Event)) (w w' : World) :
  run evs w = Some w' -> finished w ->
  finished w' /\ attempts w' = attempts w /\ ui w' = ui w.
Proof.
  revert w. induction evs as [|[now ev] evs IH]; simpl; intros w.
  - intros [= ->] Hf. now conjuncts.
  - destruct (step now ev w) as [w1|] eqn:Hs; [|discriminate].
    intros Hr Hf.
    destruct (step_finished _ _ _ _ Hs Hf) as (Hf1 & Ha1 & Hu1).
    destruct (IH w1 Hr Hf1) as (Hf' & Ha' & Hu').
    conjuncts; [assumption | congruence | congruence].
Qed.

Lemma mount_startedInvariant (engine : list Question -> SortRun Question)
      (rnd : nat -> Z) (s : Firestore) (user : option UserData) (tid : string) :
  startedInvariant (mount engine rnd s user tid).
Proof.
  unfold mount, fetchTestData, startedInvariant.
  cbn [db ui with_ui setLoading testId].
  repeat case_match; simpl; intros [?|[?|?]]; congruence.
Qed.

(** Once the submitted flag of a session is set, nothing is written to the
    attempts any more, and the answers, the flags and the clock no longer
    change, whatever happens next. *)
Theorem submitted_is_final (engine : list Question -> SortRun Question)
        (rnd : nat -> Z) (s : Firestore) (user : option UserData) (tid : string)
        (evs evs' : list (Z * Event)) (w w' : World) :
  (forall t : TestData, tests s !! tid = Some t -> 0 <= t_duration t) ->
  run evs (mount engine rnd s user tid) = Some w ->
  testSubmitted (ui w) = true ->
  run evs' w = Some w' ->
  attempts w' = attempts w /\ ui w' = ui w.
Proof.
  intros Hdur Hrun Hsub Hrun'.
  assert (finished w) as Hf.
  { pose proof (session_clock_inv engine rnd s user tid evs w Hdur Hrun)
      as (_ & _ & Htimer).
    pose proof (run_invariant startedInvariant step_startedInvariant _ _ _ Hrun
                              (mount_startedInvariant engine rnd s user tid))
      as Hst.
    unfold finished. conjuncts; [apply Hst; now left | assumption |].
    destruct (timer w) as [t|] eqn:Ht; [|reflexivity].
    destruct (Htimer t eq_refl) as (_ & _ & _ & Hno). congruence. }
  destruct (run_finished _ _ _ Hrun' Hf) as (_ & Ha & Hu). now split.
Qed.

Lemma submitted_is_final_witness :
  let w := default Sample.ready
                   (run (Sample.manualSubmit ++ [(1600, ConfirmSubmitClick)]
                           ++ Sample.acknowledged) Sample.ready) in
  let w' := default w (run Sample.acknowledged w) in
  attempts w' = attempts w /\ ui w' = ui w.
Proof.
  intros w w'.
  apply (submitted_is_final insertion_engine (fun _ => 0) Sample.store
                            (Some Sample.student) "test"
                            (Sample.manualSubmit ++ [(1600, ConfirmSubmitClick)]
                               ++ Sample.acknowledged)
                            Sample.acknowledged w w').
  - intros t Ht. vm_compute in Ht. injection Ht as <-. simpl. lia.
  - vm_compute. reflexivity.
  - vm_compute. reflexivity.
  - vm_compute. reflexivity.
Defined.

(** ** Starting, ticking, submitting *)

Ltac fields :=
  cbn [db ui userData testId mounted timer startsInFlight attemptWritesInFlight
       logWritesInFlight toasts with_ui with_db with_inflight setTimer toast
       navigate test questions currentQuestion timeRemaining userAnswers
       showSubmitWarning testSubmitted loading testStarted setTest setQuestions
       setCurrentQuestion setTimeRemaining setUserAnswers setShowSubmitWarning
       setTestSubmitted setLoading setTestStarted addAttempt addLog testAttempts
       activityLogs tests questionBanks questionDocs deps fmap option_fmap
       option_map startTest_resume handleSubmitTest_resume handleSubmitTest_log
       a_status a_userId a_testId a_score a_answers a_startedAt] in *.

(** Starting a loaded test: one record in progress is added for the user
    and the test, without score or answers; the running screen is shown and
    the first tick is scheduled. *)
Theorem start_test (n1 n2 : Z) (w : World) (u : UserData) :
  mounted w = true ->
  view (ui w) = VIntro ->
  userData w = Some u ->
  startsInFlight w = 0%nat ->
  testSubmitted (ui w) = false ->
  0 < timeRemaining (ui w) ->
  exists w' d,
    run [(n1, StartClick); (n2, StartWritten)] w = Some w'
    /\ attempts w' = attempts w ++ [d]
    /\ a_status d = in_progress /\ a_userId d = uid u /\ a_testId d = testId w
    /\ a_score d = None /\ a_answers d = [] /\ a_startedAt d = of_Z n1
    /\ ui w' = setTestStarted true (ui w)
    /\ view (ui w') = VRunning
    /\ timer w' = Some (timeRemaining (ui w)).
Proof.
  intros Hm Hv Hu Hs Hsub Htr.
  assert (testStarted (ui w) = false) as Hst.
  { unfold view in Hv. repeat case_match; try discriminate.
    now apply negb_true_iff. }
  assert (step n1 StartClick w = Some (startTest n1 w)) as H1.
  { unfold step, handle. rewrite Hm, Hv. fields.
    rewrite rerender_same; [reflexivity|].
    unfold startTest. rewrite Hu. reflexivity. }
  unfold run. rewrite H1. unfold step, handle, startTest. rewrite Hu. fields.
  rewrite Hm, Hs. fields.
  unfold rerender, deps, startTest_resume, timerEffect. fields.
  rewrite Hst, Hsub.
  rewrite bool_decide_eq_false_2 by congruence.
  apply Z.ltb_lt in Htr. rewrite Htr. cbn [andb negb].
  do 2 eexists. conjuncts; try reflexivity.
  fields. unfold view in *. fields.
  repeat case_match; simplify_eq; try reflexivity; discriminate.
Qed.

Lemma start_test_witness :
  exists w' d,
    run [(0, StartClick); (5, StartWritten)] Sample.ready = Some w'
    /\ attempts w' = attempts Sample.ready ++ [d]
    /\ a_status d = in_progress /\ a_userId d = "u1"%string
    /\ a_testId d = "test"%string
    /\ a_score d = None /\ a_answers d = [] /\ a_startedAt d = of_Z 0
    /\ ui w' = setTestStarted true (ui Sample.ready)
    /\ view (ui w') = VRunning
    /\ timer w' = Some 60.
Proof.
  apply (start_test 0 5 Sample.ready Sample.student); vm_compute; reflexivity.
Defined.

(** A tick of the countdown: above one second left, the clock goes down by
    one, the next tick is scheduled and nothing is written; on the last
    second the clock reaches zero and the test is submitted with the
    answers given so far. *)
Theorem countdown_tick (now : Z) (w : World) (t : Z) :
  mounted w = true ->
  timer w = Some t ->
  timeRemaining (ui w) = t ->
  testStarted (ui w) = true ->
  testSubmitted (ui w) = false ->
  (1 < t ->
   exists w', step now TimerFires w = Some w'
              /\ ui w' = setTimeRemaining (t - 1) (ui w)
              /\ timer w' = Some (t - 1)
              /\ attempts w' = attempts w)
  /\ (t = 1 ->
      forall u score,
        userData w = Some u ->
        calculateScore (questions (ui w)) (userAnswers (ui w)) = Normal score ->
        exists w', step now TimerFires w = Some w'
                   /\ ui w' = setTimeRemaining 0 (ui w)
                   /\ timer w' = None
                   /\ attempts w'
                      = attempts w
                          ++ [completedDoc now u (testId w)
                                           (setTimeRemaining 0 (ui w)) score]).
Proof.
  intros Hm Ht Htr Hst Hsub.
  assert (deps (ui w) <> deps (setTimeRemaining (t - 1) (ui w))) as Hdeps.
  { unfold deps. fields. rewrite Htr. intros [= H]. lia. }
  split.
  - intros Hgt. unfold step, handle. rewrite Hm, Ht. fields.
    unfold rerender. fields. rewrite bool_decide_eq_false_2 by assumption.
    unfold timerEffect. fields. rewrite Hst, Hsub.
    assert ((0 <? t - 1) = true) as -> by (apply Z.ltb_lt; lia).
    cbn [andb negb]. eexists. conjuncts; reflexivity.
  - intros -> u score Hu Hscore. unfold step, handle. rewrite Hm, Ht. fields.
    unfold rerender. fields. rewrite bool_decide_eq_false_2 by assumption.
    unfold timerEffect. fields. rewrite Hst, Hsub.
    change (1 - 1) with 0. cbn [Z.ltb Z.compare Z.eqb andb negb].
    eexists. split; [reflexivity|].
    destruct (handleSubmitTest_frame now
                (setTimer None (with_ui (setTimeRemaining 0) (setTimer None w))))
      as (-> & _ & -> & _).
    conjuncts; try reflexivity.
    now rewrite (handleSubmitTest_adds now _ u score).
Qed.

Lemma countdown_tick_witness :
  let w := default Sample.ready (run [(0, StartClick); (5, StartWritten)] Sample.ready) in
  exists w', step 1000 TimerFires w = Some w'
             /\ ui w' = setTimeRemaining (60 - 1) (ui w)
             /\ timer w' = Some (60 - 1)
             /\ attempts w' = attempts w.
Proof.
  intros w.
  apply (proj1 (countdown_tick 1000 w 60 eq_refl eq_refl eq_refl eq_refl eq_refl)).
  lia.
Defined.

(** A submission by hand with time left, acknowledged before anything else
    happens: exactly one completed record is added, with the score of the
    answers at the click; the activity is logged, the countdown stops and
    the result screen is shown. *)
Theorem manual_submission (n1 n2 n3 : Z) (w : World) (q : Question) (u : UserData)
        (score : float64) :
  mounted w = true ->
  view (ui w) = VRunning ->
  currentQuestionData (ui w) = Some q ->
  showSubmitWarning (ui w) = true ->
  userData w = Some u ->
  calculateScore (questions (ui w)) (userAnswers (ui w)) = Normal score ->
  attemptWritesInFlight w = [] ->
  logWritesInFlight w = 0%nat ->
  0 < timeRemaining (ui w) ->
  exists w',
    run [(n1, ConfirmSubmitClick); (n2, AttemptWritten); (n3, LogWritten)] w
    = Some w'
    /\ attempts w' = attempts w ++ [completedDoc n1 u (testId w) (ui w) score]
    /\ length (activityLogs (db w')) = S (length (activityLogs (db w)))
    /\ ui w' = setTestSubmitted true (ui w)
    /\ view (ui w') = VCompleted
    /\ timer w' = None.
Proof.
  intros Hm Hv Hq Hw Hu Hscore Ha Hl Htr.
  destruct (view_running_started _ Hv) as [Hst Hsub].
  assert (step n1 ConfirmSubmitClick w = Some (handleSubmitTest n1 w)) as H1.
  { unfold step, handle. rewrite Hm, Hv, Hq. unfold runningClick. rewrite Hw.
    fields. rewrite rerender_same; [reflexivity|].
    now rewrite (proj1 (handleSubmitTest_frame n1 w)). }
  unfold run. rewrite H1.
  unfold handleSubmitTest. rewrite Hscore, Hu.
  unfold step at 1, handle. fields. rewrite Hm, Ha. cbn [app]. fields.
  rewrite rerender_same by reflexivity.
  unfold step, handle. fields. rewrite Hm, Hl. fields.
  unfold rerender, deps, timerEffect. fields. rewrite Hsub, Hst.
  rewrite bool_decide_eq_false_2 by congruence.
  assert ((timeRemaining (ui w) =? 0) = false) as -> by (apply Z.eqb_neq; lia).
  rewrite andb_false_r. cbn [andb negb].
  eexists. conjuncts; try reflexivity.
  - fields. now rewrite length_app, Nat.add_comm.
  - fields. unfold view in *. fields. rewrite Hst. cbn [negb].
    repeat case_match; simplify_eq; try reflexivity; discriminate.
Qed.

Lemma manual_submission_witness :
  let w := default Sample.ready (run (removelast Sample.manualSubmit) Sample.ready) in
  exists w',
    run [(1500, ConfirmSubmitClick); (1600, AttemptWritten); (1700, LogWritten)] w
    = Some w'
    /\ attempts w'
       = attempts w ++ [completedDoc 1500 Sample.student (testId w) (ui w) (of_Z 50)]
    /\ length (activityLogs (db w')) = S (length (activityLogs (db w)))
    /\ ui w' = setTestSubmitted true (ui w)
    /\ view (ui w') = VCompleted
    /\ timer w' = None.
Proof.
  intros w.
  apply (manual_submission 1500 1600 1700 w
           (Sample.question "q4" true_false (JBool true)) Sample.student (of_Z 50));
    vm_compute; reflexivity.
Defined.

(** ** Loading a test *)

Lemma loadQuestions_cons (s : Firestore) (i : string) (ids : list string) :
  loadQuestions s (i :: ids)
  = match questionDocs s !! i with
    | Some d => withQuestionId i d :: loadQuestions s ids
    | None => loadQuestions s ids
    end.
Proof.
  unfold loadQuestions. simpl. now destruct (questionDocs s !! i).
Qed.

(** The questions of a bank are loaded in the order of the bank; an
    identifier without a question document is skipped, and nothing else
    is.  A loaded question has the fields of its document; its identifier
    is the [id] field stored in the document when there is one, and the
    identifier the bank lists otherwise.  So when no document stores an
    [id] of its own the loaded identifiers are the resolved ones of the
    bank, and a stored [id] replaces the listed one. *)
Theorem load_questions_skips_missing (s : Firestore) (ids : list string) :
  let resolved :=
    List.filter (fun i => bool_decide (is_Some (questionDocs s !! i))) ids in
  Forall2 (fun i q =>
             exists d : QuestionData,
               questionDocs s !! i = Some d
               /\ q_id q = match q_id d with Some own => own | None => i end
               /\ q_question q = q_question d
               /\ q_type q = q_type d
               /\ q_options q = q_options d
               /\ q_correctAnswer q = q_correctAnswer d)
          resolved (loadQuestions s ids)
  /\ ((forall i (d : QuestionData),
          i ∈ ids -> questionDocs s !! i = Some d -> q_id d = None) ->
      map q_id (loadQuestions s ids) = resolved)
  /\ ((forall i, i ∈ ids ->
                 exists d : QuestionData,
                   questionDocs s !! i = Some d /\ q_id d = None) ->
      map q_id (loadQuestions s ids) = ids)
  /\ (forall i (d : QuestionData) own,
         questionDocs s !! i = Some d -> q_id d = Some own ->
         map q_id (loadQuestions s [i]) = [own]).
Proof.
  cbn zeta. conjuncts.
  - induction ids as [|i ids IH]; [constructor|].
    rewrite loadQuestions_cons. cbn [List.filter].
    destruct (questionDocs s !! i) as [d|] eqn:Hd.
    + rewrite bool_decide_eq_true_2 by eauto.
      constructor; [|exact IH].
      exists d. conjuncts; try reflexivity. exact Hd.
    + rewrite bool_decide_eq_false_2 by (intros [? ?]; discriminate). exact IH.
  - induction ids as [|i ids IH]; intros Hnone; [reflexivity|].
    rewrite loadQuestions_cons. cbn [List.filter].
    assert (map q_id (loadQuestions s ids)
            = List.filter (fun i => bool_decide (is_Some (questionDocs s !! i))) ids)
      as IH'.
    { apply IH. intros j d Hj. apply Hnone. now apply list_elem_of_further. }
    destruct (questionDocs s !! i) as [d|] eqn:Hd.
    + rewrite bool_decide_eq_true_2 by eauto.
      cbn [map]. rewrite IH'. f_equal.
      unfold withQuestionId. cbn [q_id].
      now rewrite (Hnone i d (list_elem_of_here _ _) Hd).
    + rewrite bool_decide_eq_false_2 by (intros [? ?]; discriminate). exact IH'.
  - induction ids as [|i ids IH]; intros Hall; [reflexivity|].
    rewrite loadQuestions_cons.
    destruct (Hall i (list_elem_of_here _ _)) as (d & Hd & Hid).
    rewrite Hd. cbn [map]. f_equal.
    + unfold withQuestionId. cbn [q_id]. now rewrite Hid.
    + apply IH. intros j Hj. apply Hall. now apply list_elem_of_further.
  - intros i d own Hd Hown. rewrite loadQuestions_cons, Hd.
    unfold withQuestionId. cbn. now rewrite Hown.
Qed.

Lemma load_questions_skips_missing_witness :
  map q_id (loadQuestions Sample.store ["q1"; "q4"]%string) = ["q1"; "q4"]%string
  /\ map q_id (loadQuestions Sample.imported ["d1"]%string) = ["inner"]%string.
Proof.
  pose proof (load_questions_skips_missing Sample.store ["q1"; "q4"]%string)
    as (_ & _ & Hall & _).
  pose proof (load_questions_skips_missing Sample.imported ["d1"]%string)
    as (_ & _ & _ & Hown).
  split.
  - apply Hall. intros i Hi.
    apply elem_of_cons in Hi as [-> | Hi];
      [|apply elem_of_cons in Hi as [-> | Hi]];
      [vm_compute; eauto | vm_compute; eauto | now apply not_elem_of_nil in Hi].
  - apply (Hown "d1"%string
                (Sample.question (Some "inner"%string) mcq_single (JNum (of_Z 1)))
                "inner"%string); reflexivity.
Defined.

(** The outcomes of loading, for a signed-in user and a test identifier:
    the page stays open exactly when the test exists, the user has no
    completed attempt on it and its question bank exists.  Then the
    questions are those of the bank (shuffled if the test says so), every
    question has a null, unflagged answer, the clock shows the duration in
    seconds, and the start screen is shown unless no question was found.
    Loading writes nothing in any case. *)
Theorem load_outcomes (engine : list Question -> SortRun Question) (rnd : nat -> Z)
        (s : Firestore) (u : UserData) (tid : string) :
  tid <> ""%string ->
  let w := mount engine rnd s (Some u) tid in
  db w = s
  /\ (mounted w = true
      <-> exists (t : TestData) bank,
            tests s !! tid = Some t
            /\ completedAttempts (uid u) tid s = []
            /\ questionBanks s !! t_questionBankId t = Some bank)
  /\ (forall (t : TestData) bank,
         tests s !! tid = Some t ->
         completedAttempts (uid u) tid s = [] ->
         questionBanks s !! t_questionBankId t = Some bank ->
         let qs := shuffleIfEnabled engine rnd (withTestId tid t)
                                    (loadQuestions s bank) in
         ui w = {| test := Some (withTestId tid t); questions := qs;
                   currentQuestion := 0%nat;
                   timeRemaining := t_duration t * 60;
                   userAnswers := initialAnswers qs;
                   showSubmitWarning := false; testSubmitted := false;
                   loading := false; testStarted := false |}
         /\ view (ui w) = (if bool_decide (qs = []) then VNotAvailable else VIntro)
         /\ timer w = None /\ toasts w = []).
Proof.
  intros Hne w. subst w. unfold mount. apply String.eqb_neq in Hne. rewrite Hne.
  unfold fetchTestData. cbn [db ui with_ui setLoading testId].
  conjuncts.
  - repeat case_match; reflexivity.
  - split.
    + destruct (tests s !! tid) as [t|]; [|discriminate]. fields.
      destruct (completedAttempts (uid u) tid s) as [|a l] eqn:Hc; [|discriminate].
      cbn [length Z.of_nat Z.ltb Z.compare].
      change (t_questionBankId (withTestId tid t)) with (t_questionBankId t).
      destruct (questionBanks s !! t_questionBankId t) as [bank|] eqn:Hb;
        [|discriminate].
      intros _. now exists t, bank.
    + intros (t & bank & -> & -> & Hb).
      cbn [length Z.of_nat Z.ltb Z.compare].
      change (t_questionBankId (withTestId tid t)) with (t_questionBankId t).
      now rewrite Hb.
  - intros t bank -> -> Hb.
    cbn [length Z.of_nat Z.ltb Z.compare].
    change (t_questionBankId (withTestId tid t)) with (t_questionBankId t).
    rewrite Hb. cbn zeta. conjuncts; reflexivity.
Qed.

Lemma load_outcomes_witness :
  db Sample.ready = Sample.store
  /\ (mounted Sample.ready = true
      <-> exists (t : TestData) bank,
            tests Sample.store !! "test"%string = Some t
            /\ completedAttempts "u1" "test" Sample.store = []
            /\ questionBanks Sample.store !! t_questionBankId t = Some bank).
Proof.
  pose proof (load_outcomes insertion_engine (fun _ => 0) Sample.store
                            Sample.student "test" ltac:(discriminate))
    as (Hdb & Hm & _).
  split; [exact Hdb | exact Hm].
Defined.

(** ** A test without questions *)

(** When loading ends without a question - the page was left, the bank is
    empty or none of its questions exists - no event can happen: the test
    can be neither started nor submitted, and nothing is written. *)
Theorem empty_test_cannot_start (engine : list Question -> SortRun Question)
        (rnd : nat -> Z) (s : Firestore) (user : option UserData) (tid : string)
        (now : Z) (ev : Event) :
  questions (ui (mount engine rnd s user tid)) = [] ->
  step now ev (mount engine rnd s user tid) = None.
Proof.
  intros Hq. set (w := mount engine rnd s user tid) in *.
  assert (timer w = None /\ startsInFlight w = 0%nat
          /\ attemptWritesInFlight w = [] /\ logWritesInFlight w = 0%nat
          /\ testStarted (ui w) = false) as (Ht & Hs & Ha & Hl & Hst).
  { subst w. unfold mount, fetchTestData.
    cbn [db ui with_ui setLoading testId].
    repeat case_match; conjuncts; reflexivity. }
  unfold step. destruct (mounted w); [|reflexivity].
  assert (view (ui w) = VLoading \/ view (ui w) = VNotAvailable) as Hv.
  { unfold view. rewrite Hq. destruct (loading (ui w)); [now left | right].
    now rewrite orb_true_r. }
  assert (handle now ev w = None) as ->; [|reflexivity].
  unfold handle. rewrite Ht, Hs, Ha, Hl.
  destruct Hv as [-> | ->]; destruct ev; reflexivity.
Qed.

Lemma empty_test_cannot_start_witness :
  step 0 StartClick
       (mount insertion_engine (fun _ => 0) Sample.store (Some Sample.student)
              "no such test")
  = None.
Proof.
  apply (empty_test_cannot_start insertion_engine (fun _ => 0) Sample.store
                                 (Some Sample.student) "no such test").
  vm_compute. reflexivity.
Defined.

(** ** Shuffling keeps the questions *)







(** ** Single choice and true/false *)

Lemma index_eq (i j : Z) :
  0 <= i < 64 -> 0 <= j < 64 -> Float64.eq (of_Z i) (of_Z j) = (i =? j).
Proof.
  intros Hi Hj.
  assert (forallb (fun a => forallb (fun b =>
            Bool.eqb (Float64.eq (of_Z (Z.of_nat a)) (of_Z (Z.of_nat b)))
                     (Z.of_nat a =? Z.of_nat b)) (seq 0 64)) (seq 0 64) = true)
    as Hall by (vm_compute; reflexivity).
  rewrite forallb_forall in Hall.
  specialize (Hall (Z.to_nat i)). rewrite forallb_forall in Hall.
  specialize (Hall ltac:(apply in_seq; lia) (Z.to_nat j) ltac:(apply in_seq; lia)).
  rewrite !Z2Nat.id in Hall by lia. now apply Bool.eqb_prop in Hall.
Qed.

(** A single-choice answer picked among the first 64 options is graded
    correct exactly when it is the correct option, a true/false answer
    exactly when it is the correct boolean.  The comparison is strict: a
    correct answer stored as text is matched by no picked option and by no
    boolean. *)
Theorem choice_scoring (uas : list UserAnswer) (q : Question) (ua : UserAnswer) :
  findAnswer uas (q_id q) = Some ua ->
  (forall i j, q_type q = mcq_single -> 0 <= i < 64 -> 0 <= j < 64 ->
               answer ua = JNum (of_Z i) -> q_correctAnswer q = JNum (of_Z j) ->
               gradeQuestion uas q = Normal (i =? j))
  /\ (forall a b, q_type q = true_false ->
                  answer ua = JBool a -> q_correctAnswer q = JBool b ->
                  gradeQuestion uas q = Normal (Bool.eqb a b))
  /\ (forall key, q_type q = mcq_single \/ q_type q = true_false ->
                  q_correctAnswer q = JStr key ->
                  (exists x, answer ua = JNum x) \/ (exists b, answer ua = JBool b) ->
                  gradeQuestion uas q = Normal false).
Proof.
  intros Hfound. conjuncts.
  - intros i j Hty Hi Hj Ha Hc.
    rewrite (gradeQuestion_answered _ _ _ Hfound) by (rewrite Ha; discriminate).
    unfold isCorrect. rewrite Hty, Ha, Hc. simpl. f_equal. now apply index_eq.
  - intros a b Hty Ha Hc.
    rewrite (gradeQuestion_answered _ _ _ Hfound) by (rewrite Ha; discriminate).
    unfold isCorrect. now rewrite Hty, Ha, Hc.
  - intros key Hty Hc Ha.
    rewrite (gradeQuestion_answered _ _ _ Hfound)
      by (destruct Ha as [[x ->] | [b ->]]; discriminate).
    unfold isCorrect. rewrite Hc.
    destruct Hty as [-> | ->], Ha as [[x ->] | [b ->]]; reflexivity.
Qed.

Lemma choice_scoring_witness :
  gradeQuestion [Sample.answered "q1" (JNum (of_Z 2))]
                (Sample.question "q1" mcq_single (JNum (of_Z 3)))
  = Normal (2 =? 3).
Proof.
  apply (proj1 (choice_scoring [Sample.answered "q1" (JNum (of_Z 2))]
                               (Sample.question "q1" mcq_single (JNum (of_Z 3)))
                               (Sample.answered "q1" (JNum (of_Z 2))) eq_refl)
               2 3); first [reflexivity | lia].
Defined.

(** ** The range of the score *)

Lemma scoreInRange_all :
  forallb (fun n => forallb (fun c => scoreInRange (Z.of_nat c) (Z.of_nat n))
                            (seq 0 (S n))) (seq 1 150) = true.
Proof. vm_compute. reflexivity. Qed.

(** On a test of at most 150 questions the score is a whole number from 0
    to 100: the exactly rounded percentage of right answers or one below
    it, 0 only when no answer is right and 100 only when all are. *)
Theorem score_range (c n : Z) :
  1 <= n <= 150 -> 0 <= c <= n ->
  exists k, percentage c n = of_Z k
            /\ 0 <= k <= 100
            /\ (k = spec_roundedPercent c n \/ k = spec_roundedPercent c n - 1)
            /\ (k = 0 <-> c = 0)
            /\ (k = 100 <-> c = n).
Proof.
  intros Hn Hc. pose proof scoreInRange_all as Hall.
  rewrite forallb_forall in Hall.
  specialize (Hall (Z.to_nat n) ltac:(apply in_seq; lia)).
  rewrite forallb_forall in Hall.
  specialize (Hall (Z.to_nat c) ltac:(apply in_seq; lia)).
  rewrite !Z2Nat.id in Hall by lia. unfold scoreInRange in Hall.
  cbv zeta in Hall.
  set (r := spec_roundedPercent c n) in *.
  set (k := if bool_decide (percentage c n = of_Z r) then r else r - 1) in *.
  repeat (apply andb_true_iff in Hall as [Hall ?]).
  apply bool_decide_eq_true_1 in Hall.
  assert (k = r \/ k = r - 1) as Hor
      by (subst k; case_bool_decide; [now left | now right]).
  assert ((k =? 0) = (c =? 0)) as Hzero by now apply Bool.eqb_prop.
  assert ((k =? 100) = (c =? n)) as Hfull by now apply Bool.eqb_prop.
  exists k. conjuncts; try assumption; lia.
Qed.

Lemma score_range_witness :
  exists k, percentage 3 5 = of_Z k
            /\ 0 <= k <= 100
            /\ (k = spec_roundedPercent 3 5 \/ k = spec_roundedPercent 3 5 - 1)
            /\ (k = 0 <-> 3 = 0)
            /\ (k = 100 <-> 3 = 5).
Proof. apply (score_range 3 5); lia. Defined.


(** ** The time display *)

Lemma fold_digits (ds : list Z) (acc : Z) :
  fold_left (fun a d => 10 * a + d) ds acc
  = acc * 10 ^ Z.of_nat (length ds) + digits_value ds.
Proof.
  unfold digits_value. revert acc.
  induction ds as [|d ds IH]; intros acc; simpl fold_left.
  - simpl. lia.
  - rewrite IH, (IH (10 * 0 + d)).
    change (length (d :: ds)) with (S (length ds)).
    rewrite Nat2Z.inj_succ, Z.pow_succ_r by lia. lia.
Qed.

Lemma take_digits_cons (c : ascii) (r : string) (d : Z) :
  digit_of c = Some d ->
  take_digits (String c r) = (d :: fst (take_digits r), snd (take_digits r)).
Proof.
  intros Hd. simpl. rewrite Hd. now destruct (take_digits r).
Qed.

Lemma allDigits_take (s : string) :
  allDigits s = true ->
  snd (take_digits s) = ""%string
  /\ length (fst (take_digits s)) = String.length s.
Proof.
  induction s as [|c r IH]; simpl allDigits; intros Hall; [now split|].
  apply andb_true_iff in Hall as [Hc Hr].
  apply bool_decide_eq_true_1 in Hc as [d Hd].
  rewrite (take_digits_cons c r d Hd). simpl.
  destruct (IH Hr) as [-> ->]. now split.
Qed.

Lemma strValue_cons (c : ascii) (r : string) (d : Z) :
  digit_of c = Some d -> allDigits r = true ->
  strValue (String c r) = d * 10 ^ Z.of_nat (String.length r) + strValue r.
Proof.
  intros Hd Hr. unfold strValue. rewrite (take_digits_cons c r d Hd).
  cbn [fst]. unfold digits_value at 1. cbn [fold_left].
  rewrite fold_digits. rewrite (proj2 (allDigits_take r Hr)). lia.
Qed.

Lemma pretty_N_char_digit (x : N) :
  (x < 10)%N -> digit_of (pretty_N_char x) = Some (Z.of_N x).
Proof.
  intros Hx.
  assert (x = 0 \/ x = 1 \/ x = 2 \/ x = 3 \/ x = 4 \/ x = 5 \/ x = 6 \/ x = 7
          \/ x = 8 \/ x = 9)%N as H by lia.
  repeat destruct H as [-> | H]; try subst x; reflexivity.
Qed.

(** Printing a number gives its decimal digits. *)
Lemma pretty_N_go_digits (x : N) (s : string) :
  allDigits s = true ->
  allDigits (pretty_N_go x s) = true
  /\ (String.length s <= String.length (pretty_N_go x s))%nat
  /\ strValue (pretty_N_go x s)
     = Z.of_N x * 10 ^ Z.of_nat (String.length s) + strValue s.
Proof.
  revert s. induction (N.lt_wf_0 x) as [x _ IH]. intros s Hs.
  destruct (decide (x = 0)%N) as [-> | Hx].
  - rewrite pretty_N_go_0. conjuncts; [assumption | lia | lia].
  - rewrite pretty_N_go_step by lia.
    assert (x `mod` 10 < 10)%N as Hm by (apply N.mod_lt; lia).
    pose proof (pretty_N_char_digit _ Hm) as Hd.
    assert (allDigits (String (pretty_N_char (x `mod` 10)) s) = true) as Hs'.
    { simpl. rewrite Hs, andb_true_r. apply bool_decide_eq_true_2.
      rewrite Hd. eauto. }
    destruct (IH (x `div` 10)%N ltac:(apply N.div_lt; lia) _ Hs')
      as (Hall & Hlen & Hval).
    conjuncts; [assumption | simpl in Hlen; lia |].
    rewrite Hval, (strValue_cons _ _ _ Hd Hs).
    change (String.length (String (pretty_N_char (x `mod` 10)) s))
      with (S (String.length s)).
    rewrite Nat2Z.inj_succ, Z.pow_succ_r by lia.
    rewrite (N.div_mod x 10) at 3 by lia.
    rewrite N2Z.inj_add, N2Z.inj_mul. change (Z.of_N 10) with 10. lia.
Qed.

Lemma pretty_Z_digits (z : Z) :
  0 <= z ->
  allDigits (pretty z) = true
  /\ (1 <= String.length (pretty z))%nat
  /\ strValue (pretty z) = z.
Proof.
  intros Hz. destruct z as [|p|p]; [now conjuncts | | lia].
  change (pretty (Z.pos p)) with (pretty_N_go (N.pos p) "").
  destruct (pretty_N_go_digits (N.pos p) "" eq_refl) as (Hall & _ & Hval).
  change (strValue "") with 0 in Hval. change (String.length "") with 0%nat in Hval.
  change (10 ^ Z.of_nat 0) with 1 in Hval. change (Z.of_N (N.pos p)) with (Z.pos p) in Hval.
  conjuncts; [assumption | | lia].
  destruct (pretty_N_go (N.pos p) "") eqn:Hp; [|simpl; lia].
  exfalso. change (strValue "") with 0 in Hval. lia.
Qed.

Lemma padStart2_digits (s : string) :
  allDigits s = true ->
  allDigits (padStart2 s) = true
  /\ (2 <= String.length (padStart2 s))%nat
  /\ strValue (padStart2 s) = strValue s
  /\ ((String.length s <= 2)%nat -> String.length (padStart2 s) = 2%nat).
Proof.
  intros Hs. unfold padStart2.
  destruct s as [|c [|c' r]]; cbn [String.length].
  - now conjuncts.
  - simpl in Hs. rewrite andb_true_r in Hs.
    conjuncts; [simpl; now rewrite Hs | simpl; lia | | reflexivity].
    apply bool_decide_eq_true_1 in Hs as [d Hd].
    change ("0" +:+ String c "")%string with (String "0" (String c "")).
    rewrite (strValue_cons "0" (String c "") 0 eq_refl)
      by (simpl; rewrite andb_true_r; apply bool_decide_eq_true_2; eauto).
    lia.
  - conjuncts; [assumption | lia | reflexivity | lia].
Qed.

Lemma index_colon (a b : string) :
  allDigits a = true ->
  String.index 0 ":" (a +:+ ":" +:+ b) = Some (String.length a).
Proof.
  induction a as [|c r IH]; intros Ha.
  - change ("" +:+ ":" +:+ b)%string with (String ":" b).
    cbn [String.index String.length].
    assert (String.prefix ":" (String ":" b) = true) as ->; [|reflexivity].
    cbn [String.prefix].
    destruct (ascii_dec ":" ":"); [now destruct b | congruence].
  - simpl in Ha. apply andb_true_iff in Ha as [Hc Hr].
    change (String c r +:+ ":" +:+ b)%string with (String c (r +:+ ":" +:+ b)).
    cbn [String.index String.length]. rewrite (IH Hr).
    assert (String.prefix ":" (String c (r +:+ ":" +:+ b)) = false) as ->;
      [|reflexivity].
    cbn [String.prefix]. destruct (ascii_dec ":" c) as [<- | _]; [|reflexivity].
    apply bool_decide_eq_true_1 in Hc as [d Hd]. discriminate.
Qed.

Lemma substring_head (a rest : string) :
  String.substring 0 (String.length a) (a +:+ rest) = a.
Proof.
  induction a as [|c r IH].
  - change ("" +:+ rest)%string with rest. now destruct rest.
  - change (String c r +:+ rest)%string with (String c (r +:+ rest)).
    cbn [String.substring String.length]. now rewrite IH.
Qed.

Lemma substring_all (b : string) :
  String.substring 0 (String.length b) b = b.
Proof. induction b as [|c r IH]; simpl; [reflexivity | now rewrite IH]. Qed.

Lemma substring_tail (a b : string) (n : nat) :
  String.substring (S (String.length a)) n (a +:+ ":" +:+ b)
  = String.substring 0 n b.
Proof.
  induction a as [|c r IH].
  - reflexivity.
  - change (String c r +:+ ":" +:+ b)%string with (String c (r +:+ ":" +:+ b)).
    cbn [String.substring String.length]. exact IH.
Qed.

Lemma length_append (a b : string) :
  String.length (a +:+ b) = (String.length a + String.length b)%nat.
Proof.
  induction a as [|c r IH]; [reflexivity|].
  change (String c r +:+ b)%string with (String c (r +:+ b)).
  cbn [String.length]. now rewrite IH.
Qed.

Lemma readTime_fields (m sec : string) :
  allDigits m = true -> allDigits sec = true ->
  (0 < String.length m)%nat -> String.length sec = 2%nat ->
  readTime (m +:+ ":" +:+ sec) = Some (60 * strValue m + strValue sec).
Proof.
  intros Hm Hs Hlm Hls. unfold readTime.
  rewrite (index_colon m sec Hm), substring_head, substring_tail.
  replace (String.length (m +:+ ":" +:+ sec) - S (String.length m))%nat
    with (String.length sec)
    by (rewrite !length_append; simpl; lia).
  rewrite substring_all.
  destruct (allDigits_take m Hm) as [Hrm Hlenm].
  destruct (allDigits_take sec Hs) as [Hrs Hlens].
  unfold strValue.
  destruct (take_digits m) as [dm rm], (take_digits sec) as [ds rs].
  simpl in *. subst rm rs.
  rewrite bool_decide_eq_true_2; [reflexivity|].
  conjuncts; [reflexivity | reflexivity | lia | lia].
Qed.

Lemma two_digits (r : Z) :
  0 <= r < 60 -> (String.length (pretty r) <= 2)%nat.
Proof.
  intros Hr.
  assert (forallb (fun n => (String.length (pretty (Z.of_nat n)) <=? 2)%nat)
                  (seq 0 60) = true) as Hall by (vm_compute; reflexivity).
  rewrite forallb_forall in Hall.
  specialize (Hall (Z.to_nat r) ltac:(apply in_seq; lia)).
  rewrite Z2Nat.id in Hall by lia. now apply Nat.leb_le.
Qed.

(** Every whole number of seconds from zero up to [MAX_SAFE_INTEGER] is
    shown as the digits of the minutes (two at least), a colon and exactly
    two digits of seconds below 60, and the display reads back as the same
    number of seconds: two different times are never shown alike. *)
Theorem formatTime_reads_back (s : Z) :
  0 <= s <= MAX_SAFE_INTEGER ->
  exists shown,
    formatTime s = Some shown
    /\ readTime shown = Some s
    /\ (forall s', 0 <= s' <= MAX_SAFE_INTEGER ->
                   formatTime s' = Some shown -> s' = s)
    /\ exists m sec,
         shown = m +:+ ":" +:+ sec
         /\ allDigits m = true /\ (2 <= String.length m)%nat /\ strValue m = s / 60
         /\ allDigits sec = true /\ String.length sec = 2%nat
         /\ strValue sec = s mod 60.
Proof.
  assert (forall s, 0 <= s <= MAX_SAFE_INTEGER ->
            exists shown,
              formatTime s = Some shown
              /\ readTime shown = Some s
              /\ exists m sec,
                   shown = m +:+ ":" +:+ sec
                   /\ allDigits m = true /\ (2 <= String.length m)%nat
                   /\ strValue m = s / 60
                   /\ allDigits sec = true /\ String.length sec = 2%nat
                   /\ strValue sec = s mod 60) as Hshown.
  { clear s. intros s Hs. unfold formatTime.
    rewrite bool_decide_eq_true_2 by lia.
    rewrite Z.rem_mod_nonneg by lia.
    pose proof (Z.mod_pos_bound s 60 ltac:(lia)) as Hr.
    assert (0 <= s / 60) as Hq by (apply Z.div_pos; lia).
    destruct (pretty_Z_digits (s / 60) Hq) as (Ham & Hlm & Hvm).
    destruct (pretty_Z_digits (s mod 60) ltac:(lia)) as (Has & Hls & Hvs).
    destruct (padStart2_digits _ Ham) as (Ham' & Hlm' & Hvm' & _).
    destruct (padStart2_digits _ Has) as (Has' & _ & Hvs' & Hls').
    specialize (Hls' (two_digits _ Hr)).
    eexists. split; [reflexivity|]. split.
    - rewrite readTime_fields by (assumption || lia).
      f_equal. rewrite Hvm', Hvs', Hvm, Hvs.
      pose proof (Z.div_mod s 60 ltac:(lia)). lia.
    - do 2 eexists. split; [reflexivity|].
      conjuncts; try assumption; congruence. }
  intros Hs. destruct (Hshown s Hs) as (shown & Hf & Hr & Hshape).
  exists shown. conjuncts; try assumption.
  intros s' Hs' Hf'. destruct (Hshown s' Hs') as (shown' & Hf2 & Hr2 & _).
  congruence.
Qed.

Lemma formatTime_reads_back_witness :
  formatTime 754 = Some "12:34"%string /\ readTime "12:34" = Some 754.
Proof.
  destruct (formatTime_reads_back 754 ltac:(unfold MAX_SAFE_INTEGER; lia))
    as (shown & Hf & Hr & _).
  assert (shown = "12:34"%string) as -> by (vm_compute in Hf; congruence).
  split; [reflexivity | exact Hr].
Defined.

(** The clock of a session is always shown in this form: the remaining
    time is never negative. *)
Lemma formatTime_examples :
  formatTime 0 = Some "00:00"%string /\ formatTime 59 = Some "00:59"%string
  /\ formatTime 3600 = Some "60:00"%string
  /\ formatTime 18000 = Some "300:00"%string
  /\ formatTime (-61) = Some "-2:-1"%string.
Proof. repeat split; vm_compute; reflexivity. Qed.

(** ** A blank submission *)

Lemma findAnswer_initial (qs : list Question) (q : Question) :
  q ∈ qs ->
  exists ua, findAnswer (initialAnswers qs) (q_id q) = Some ua
             /\ answer ua = JNull.
Proof.
  unfold findAnswer, initialAnswers.
  induction qs as [|q0 qs IH]; intros Hin.
  - now apply not_elem_of_nil in Hin.
  - cbn [map List.find questionId].
    destruct (String.eqb (q_id q0) (q_id q)) eqn:Heq; [eauto|].
    apply elem_of_cons in Hin as [-> | Hin]; [|now apply IH].
    now rewrite String.eqb_refl in Heq.
Qed.

Lemma percentage_zero (n : Z) : 1 <= n <= 150 -> percentage 0 n = of_Z 0.
Proof.
  intros Hn. pose proof scoreInRange_all as Hall.
  rewrite forallb_forall in Hall.
  specialize (Hall (Z.to_nat n) ltac:(apply in_seq; lia)).
  rewrite forallb_forall in Hall.
  specialize (Hall 0%nat ltac:(apply in_seq; lia)).
  rewrite Z2Nat.id in Hall by lia. change (Z.of_nat 0) with 0 in Hall.
  unfold scoreInRange in Hall. cbv zeta in Hall.
  set (r := spec_roundedPercent 0 n) in *.
  set (k := if bool_decide (percentage 0 n = of_Z r) then r else r - 1) in *.
  repeat (apply andb_true_iff in Hall as [Hall ?]).
  apply bool_decide_eq_true_1 in Hall.
  assert ((k =? 0) = (0 =? 0)) as Hzero by now apply Bool.eqb_prop.
  rewrite Hall. f_equal. lia.
Qed.

Lemma none_graded_correct (uas : list UserAnswer) (qs : list Question) :
  (forall q, q ∈ qs -> gradeQuestion uas q = Normal false) ->
  List.filter (gradedCorrect uas) qs = [].
Proof.
  induction qs as [|q qs IH]; intros Hg; [reflexivity|].
  cbn [List.filter]. unfold gradedCorrect at 1.
  rewrite (Hg q (list_elem_of_here _ _)). apply IH.
  intros q' Hq'. apply Hg. now apply list_elem_of_further.
Qed.

Lemma answeredCount_initial (qs : list Question) :
  answeredCount (initialAnswers qs) = 0.
Proof.
  unfold answeredCount, initialAnswers.
  induction qs as [|q qs IH]; [reflexivity|].
  cbn [map List.filter answer strictEq negb]. exact IH.
Qed.

(** A test submitted before any question is answered: nothing counts as
    answered, no question is graded correct, scoring cannot fail whatever
    the question bank holds, and on a test of 1 to 150 questions the score
    is 0. *)
Theorem blank_submission (qs : list Question) :
  answeredCount (initialAnswers qs) = 0
  /\ correctCount (initialAnswers qs) qs = 0
  /\ calculateScore qs (initialAnswers qs)
     = Normal (percentage 0 (Z.of_nat (length qs)))
  /\ ((1 <= length qs <= 150)%nat ->
      calculateScore qs (initialAnswers qs) = Normal (of_Z 0)).
Proof.
  assert (forall q, q ∈ qs -> gradeQuestion (initialAnswers qs) q = Normal false)
    as Hgrade.
  { intros q Hq. destruct (findAnswer_initial qs q Hq) as (ua & Hf & Hn).
    now apply (gradeQuestion_unanswered _ _ ua). }
  assert (noThrow (initialAnswers qs) qs) as Hok.
  { apply Forall_forall. intros q Hq. rewrite (Hgrade q Hq). eauto. }
  assert (correctCount (initialAnswers qs) qs = 0) as Hzero.
  { unfold correctCount. now rewrite (none_graded_correct _ _ Hgrade). }
  assert (calculateScore qs (initialAnswers qs)
          = Normal (percentage 0 (Z.of_nat (length qs)))) as Hscore
      by now rewrite (calculateScore_counts _ _ Hok), Hzero.
  conjuncts; try assumption.
  - apply answeredCount_initial.
  - intros Hlen. rewrite Hscore. f_equal. apply percentage_zero. lia.
Qed.

Lemma blank_submission_witness :
  calculateScore Sample.five (initialAnswers Sample.five) = Normal (of_Z 0).
Proof.
  apply (proj2 (proj2 (proj2 (blank_submission Sample.five)))). simpl. lia.
Defined.


(** ** Ticking and unticking an option *)

Lemma findAnswer_some (uas : list UserAnswer) (x : string) :
  x ∈ map questionId uas ->
  exists ua, findAnswer uas x = Some ua /\ questionId ua = x.
Proof.
  intros Hx. unfold findAnswer.
  apply list_elem_of_fmap in Hx as (ua0 & -> & Hin).
  destruct (List.find (fun ua => String.eqb (questionId ua) (questionId ua0)) uas)
    as [ua|] eqn:Hf.
  - exists ua. split; [reflexivity|].
    apply find_some in Hf as [_ Hf]. now apply String.eqb_eq in Hf.
  - apply list_elem_of_In in Hin.
    pose proof (find_none _ _ Hf ua0 Hin) as Hno. simpl in Hno.
    rewrite String.eqb_refl in Hno. discriminate.
Qed.

Lemma updateAnswer_twice (qid : string) (v1 v2 : JsValue) (uas : list UserAnswer) :
  updateAnswer qid v2 (updateAnswer qid v1 uas) = updateAnswer qid v2 uas.
Proof.
  unfold updateAnswer. rewrite map_map. apply map_ext. intros ua.
  destruct (String.eqb (questionId ua) qid) eqn:Heq; simpl; now rewrite Heq.
Qed.

Lemma filter_out_last (cur : list Z) (i : Z) :
  i ∉ cur -> List.filter (fun a => negb (a =? i)) (cur ++ [i]) = cur.
Proof.
  induction cur as [|a cur IH]; intros Hnot; simpl.
  - now rewrite Z.eqb_refl.
  - apply not_elem_of_cons in Hnot as [Hne Hnot].
    assert ((a =? i) = false) as -> by (apply Z.eqb_neq; congruence).
    simpl. now rewrite IH.
Qed.

Lemma currentAnswers_updated (c : Component) (q : Question) (l : list Z) :
  q_id q ∈ map questionId (userAnswers c) ->
  currentAnswers (setUserAnswers (updateAnswer (q_id q) (JArr l)) c) q = l.
Proof.
  intros Hin. unfold currentAnswers. cbn [userAnswers setUserAnswers].
  rewrite findAnswer_updateAnswer.
  destruct (findAnswer_some _ _ Hin) as (ua & -> & _). reflexivity.
Qed.

(** Ticking an option of a multiple-choice question and unticking it again
    leaves the options that were ticked before - but as an array: a
    question that was unanswered is afterwards answered with the empty
    selection, which no longer counts as unanswered.  Nothing is written. *)
Theorem tick_untick (n1 n2 : Z) (w : World) (q : Question) (opts : list string)
        (i : nat) :
  mounted w = true ->
  view (ui w) = VRunning ->
  currentQuestionData (ui w) = Some q ->
  q_type q = mcq_multiple ->
  q_options q = Some opts ->
  (i < length opts)%nat ->
  Z.of_nat i ∉ currentAnswers (ui w) q ->
  q_id q ∈ map questionId (userAnswers (ui w)) ->
  exists w1 w2,
    step n1 (CheckOption i true) w = Some w1
    /\ currentAnswers (ui w1) q = currentAnswers (ui w) q ++ [Z.of_nat i]
    /\ step n2 (CheckOption i false) w1 = Some w2
    /\ userAnswers (ui w2)
       = updateAnswer (q_id q) (JArr (currentAnswers (ui w) q)) (userAnswers (ui w))
    /\ answer <$> findAnswer (userAnswers (ui w2)) (q_id q)
       = Some (JArr (currentAnswers (ui w) q))
    /\ attempts w2 = attempts w.
Proof.
  intros Hm Hv Hq Hty Hopts Hi Hnot Hin.
  set (cur := currentAnswers (ui w) q) in *.
  set (w1 := with_ui (setUserAnswers
                        (updateAnswer (q_id q) (JArr (cur ++ [Z.of_nat i])))) w).
  assert (step n1 (CheckOption i true) w = Some w1) as H1.
  { unfold step, handle. rewrite Hm, Hv, Hq. unfold runningClick.
    rewrite Hty, Hopts. rewrite bool_decide_eq_true_2 by assumption.
    cbn [fmap option_fmap option_map]. now rewrite rerender_same. }
  assert (currentAnswers (ui w1) q = cur ++ [Z.of_nat i]) as Hcur1
      by (apply currentAnswers_updated; assumption).
  set (w2 := with_ui (setUserAnswers (updateAnswer (q_id q) (JArr cur))) w1).
  assert (step n2 (CheckOption i false) w1 = Some w2) as H2.
  { unfold step, handle.
    assert (view (ui w1) = VRunning) as -> by exact Hv.
    assert (currentQuestionData (ui w1) = Some q) as -> by exact Hq.
    assert (mounted w1 = true) as -> by exact Hm.
    unfold runningClick. rewrite Hty, Hopts.
    rewrite bool_decide_eq_true_2 by assumption.
    rewrite Hcur1, (filter_out_last cur _ Hnot).
    cbn [fmap option_fmap option_map]. now rewrite rerender_same. }
  exists w1, w2. conjuncts; try assumption.
  - subst w2 w1. cbn [ui with_ui userAnswers setUserAnswers].
    apply updateAnswer_twice.
  - subst w2 w1. cbn [ui with_ui userAnswers setUserAnswers].
    rewrite updateAnswer_twice, findAnswer_updateAnswer.
    destruct (findAnswer_some _ _ Hin) as (ua & -> & _). reflexivity.
  - reflexivity.
Qed.

Lemma tick_untick_witness :
  let q := Sample.question "q3" mcq_multiple (JArr [0; 2]) in
  let w := with_ui (setTestStarted true)
             (with_ui (setUserAnswers (fun _ => initialAnswers [q]))
                      (with_ui (setQuestions [q]) Sample.ready)) in
  exists w1 w2,
    step 10 (CheckOption 1 true) w = Some w1
    /\ currentAnswers (ui w1) q = currentAnswers (ui w) q ++ [1]
    /\ step 20 (CheckOption 1 false) w1 = Some w2
    /\ userAnswers (ui w2)
       = updateAnswer (q_id q) (JArr (currentAnswers (ui w) q)) (userAnswers (ui w))
    /\ answer <$> findAnswer (userAnswers (ui w2)) (q_id q)
       = Some (JArr (currentAnswers (ui w) q))
    /\ attempts w2 = attempts w.
Proof.
  intros q w.
  apply (tick_untick 10 20 w q ["a"; "b"; "c"; "d"]%string 1);
    try reflexivity.
  - simpl. lia.
  - apply (bool_decide_unpack _). vm_compute. exact I.
  - apply (bool_decide_unpack _). vm_compute. exact I.
Defined.

(** ** Moving between the questions *)

(** On the running screen "Next" is refused on the last question and
    "Previous" on the first; anywhere else "Next" shows the following
    question and "Previous" then comes back, leaving the whole state as it
    was. *)
Theorem next_then_previous (n1 n2 : Z) (w : World) (q : Question) :
  mounted w = true ->
  view (ui w) = VRunning ->
  currentQuestionData (ui w) = Some q ->
  (currentQuestion (ui w) = (length (questions (ui w)) - 1)%nat ->
   step n1 NextClick w = None)
  /\ (currentQuestion (ui w) = 0%nat -> step n1 PreviousClick w = None)
  /\ ((currentQuestion (ui w) < length (questions (ui w)) - 1)%nat ->
      exists w1 w2,
        step n1 NextClick w = Some w1
        /\ currentQuestion (ui w1) = S (currentQuestion (ui w))
        /\ step n2 PreviousClick w1 = Some w2
        /\ ui w2 = ui w /\ attempts w2 = attempts w).
Proof.
  intros Hm Hv Hq. conjuncts.
  - intros Hlast. unfold step, handle. rewrite Hm, Hv, Hq. unfold runningClick.
    now rewrite bool_decide_eq_true_2.
  - intros Hfirst. unfold step, handle. rewrite Hm, Hv, Hq. unfold runningClick.
    now rewrite bool_decide_eq_true_2.
  - intros Hlt.
    set (n := length (questions (ui w))) in *.
    set (w1 := with_ui (setCurrentQuestion (S (currentQuestion (ui w)))) w).
    assert (step n1 NextClick w = Some w1) as H1.
    { unfold step, handle. rewrite Hm, Hv, Hq. unfold runningClick. fold n.
      rewrite bool_decide_eq_false_2 by lia.
      replace (Nat.min (n - 1) (currentQuestion (ui w) + 1))
        with (S (currentQuestion (ui w))) by lia.
      cbn [fmap option_fmap option_map]. now rewrite rerender_same. }
    assert (exists q', currentQuestionData (ui w1) = Some q') as [q' Hq'].
    { unfold currentQuestionData. subst w1.
      cbn [ui with_ui questions currentQuestion setCurrentQuestion].
      apply lookup_lt_is_Some. fold n. lia. }
    exists w1, (with_ui (setCurrentQuestion (currentQuestion (ui w))) w1).
    conjuncts; [assumption | reflexivity | | | reflexivity].
    + unfold step, handle.
      assert (view (ui w1) = VRunning) as -> by exact Hv.
      assert (mounted w1 = true) as -> by exact Hm.
      rewrite Hq'. unfold runningClick.
      rewrite bool_decide_eq_false_2 by (subst w1; simpl; lia).
      replace (Nat.max 0 (currentQuestion (ui w1) - 1))
        with (currentQuestion (ui w)) by (subst w1; simpl; lia).
      cbn [fmap option_fmap option_map]. now rewrite rerender_same.
    + subst w1. cbn [ui with_ui]. now destruct (ui w).
Qed.

Lemma next_then_previous_witness :
  let w := default Sample.ready (run [(0, StartClick); (5, StartWritten)] Sample.ready) in
  exists w1 w2,
    step 10 NextClick w = Some w1
    /\ currentQuestion (ui w1) = S (currentQuestion (ui w))
    /\ step 20 PreviousClick w1 = Some w2
    /\ ui w2 = ui w /\ attempts w2 = attempts w.
Proof.
  intros w.
  apply (proj2 (proj2 (next_then_previous 10 20 w
                         (Sample.question "q1"%string mcq_single (JNum (of_Z 1)))
                         eq_refl eq_refl eq_refl))).
  vm_compute. lia.
Defined.

(** ** Witnesses of earlier lemmas *)

Lemma mount_blocked_witness :
  let s := addAttempt (completedDoc 0 Sample.student "test" (ui Sample.ready) (of_Z 50))
                      Sample.store in
  let w := mount insertion_engine (fun _ => 0) s (Some Sample.student) "test" in
  mounted w = false
  /\ view (ui w) = VNotAvailable
  /\ toasts w = ["Test Already Completed"%string]
  /\ db w = s
  /\ (forall now ev, step now ev w = None).
Proof.
  intros s.
  apply (mount_blocked insertion_engine (fun _ => 0) s Sample.student "test"
                       (Sample.aptitudeOf None (Some (of_Z 70)))).
  - discriminate.
  - vm_compute. reflexivity.
  - vm_compute. lia.
Defined.

Lemma effect_resubmits_witness :
  let w := default Sample.ready
                   (run (Sample.untilExpiry ++ [(60100, AttemptWritten)]) Sample.ready) in
  exists w' d,
    step 60200 LogWritten w = Some w'
    /\ testSubmitted (ui w') = true
    /\ attempts w' = attempts w ++ [d]
    /\ a_status d = completed.
Proof.
  intros w.
  apply (effect_resubmits 60200 w Sample.student (of_Z 0) 0);
    vm_compute; reflexivity.
Defined.

Lemma percentage_exact_below_40_witness :
  percentage 3 5 = of_Z (spec_roundedPercent 3 5).
Proof. apply (percentage_exact_below_40 3 5); lia. Defined.

Lemma multiple_choice_set_equality_witness :
  multipleCorrect (JArr [0; 2]) (JArr [2; 0]) = Normal true
  <-> indexSet [0; 2] = indexSet [2; 0].
Proof.
  apply (multiple_choice_set_equality [0; 2] [2; 0]);
    apply (bool_decide_unpack _); vm_compute; exact I.
Defined.
